(** * microcline: the message box and the command box

    A shallow embedding of [src/microcline.py]: the wrapping [Msgbox.append],
    the scrollback [Msgbox.draw], paging ([Msgbox.page_up]/[page_down]) and the
    key loop of [Cmdbox.get].

    Python values are modelled as follows.
    - A Python [str] is a list of code points ([pystr]); [len] counts code
      points, as Python does.
    - A chunk passed to [append] is a Python value drawn from strings, ints and
      tuples of strings and ints ([chunk]); any other type is [COther].
    - A [collections.deque] with a [maxlen] is the record [deque]: its items,
      most recent first, and the bound it was built with.
    - Curses attributes are integers: [A_NORMAL = 0], [A_DIM = 1 << 20],
      [A_BOLD = 1 << 21] (ncurses' values).
    - A raised exception is [Exc e] together with the state mutated so far
      (Python keeps mutations made before the raise); a [while True] loop is
      run with fuel, and [Hang] is the result when the fuel runs out. *)

From Stdlib Require Import ZArith List String Ascii Bool Lia.
Import ListNotations.
Open Scope Z_scope.

(** ** Python strings *)

Definition pystr := list Z.

(** A string literal of ASCII text, as a list of code points. *)
Definition of_ascii (s : string) : pystr :=
  map (fun a => Z.of_nat (nat_of_ascii a)) (list_ascii_of_string s).

Definition py_len (s : pystr) : Z := Z.of_nat (List.length s).

(** [str.isspace] on one code point (Unicode whitespace, as CPython has it). *)
Definition is_space (c : Z) : bool :=
  ((9 <=? c) && (c <=? 13)) || ((28 <=? c) && (c <=? 32)) || (c =? 133)
  || (c =? 160) || (c =? 5760) || ((8192 <=? c) && (c <=? 8202))
  || (c =? 8232) || (c =? 8233) || (c =? 8239) || (c =? 8287) || (c =? 12288).

(** [str.lstrip()] with no argument. *)
Fixpoint lstrip (s : pystr) : pystr :=
  match s with
  | [] => []
  | c :: t => if is_space c then lstrip t else s
  end.

(** Slicing [s[:n]] and [s[n:]], with Python's meaning of a negative [n]. *)
Definition py_take (n : Z) (s : pystr) : pystr :=
  if 0 <=? n then firstn (Z.to_nat n) s
  else firstn (Z.to_nat (py_len s + n)) s.

Definition py_drop (n : Z) (s : pystr) : pystr :=
  if 0 <=? n then skipn (Z.to_nat n) s
  else skipn (Z.to_nat (py_len s + n)) s.

Fixpoint rfind_aux (c : Z) (s : pystr) (i best : Z) : Z :=
  match s with
  | [] => best
  | x :: t => rfind_aux c t (i + 1) (if x =? c then i else best)
  end.

(** [s.rfind(c)] for a one-character [c]: the last index of [c], or [-1]. *)
Definition rfind (c : Z) (s : pystr) : Z := rfind_aux c s 0 (-1).

Fixpoint digits_aux (fuel : nat) (n : Z) (acc : pystr) : pystr :=
  match fuel with
  | O => acc
  | S f =>
      let acc' := (48 + n mod 10) :: acc in
      if n <? 10 then acc' else digits_aux f (n / 10) acc'
  end.

(** [str(n)] for an int (a number has at most as many digits as bits). *)
Definition py_str_int (z : Z) : pystr :=
  if z <? 0 then 45 :: digits_aux (S (Z.to_nat (Z.log2 (- z)))) (- z) []
  else digits_aux (S (Z.to_nat (Z.log2 z))) z [].

Definition space : Z := 32.
Definition glyph_dot : Z := 183.        (* "·" *)
Definition glyph_prompt : Z := 10096.   (* "❰" *)
Definition glyph_command : Z := 10097.  (* "❱" *)
Definition glyph_error : Z := 10006.    (* "✖" *)

Definition A_NORMAL : Z := 0.
Definition A_DIM : Z := Z.shiftl 1 20.
Definition A_BOLD : Z := Z.shiftl 1 21.

(** ** Chunks, lines and the bounded deque *)

Inductive atom : Type :=
| AStr (s : pystr)
| AInt (z : Z).

Inductive chunk : Type :=
| CStr (s : pystr)
| CTuple (items : list atom)
| COther.

(** A line of the scrollback: a list of [(phrase, style)] pairs. *)
Definition line := list (pystr * atom).

Record deque (A : Type) := mkDeque { items : list A; maxlen : nat }.
Arguments mkDeque {A} _ _.
Arguments items {A} _.
Arguments maxlen {A} _.

(** [deque.appendleft]: the oldest item falls off the right end when full. *)
Definition appendleft {A} (x : A) (d : deque A) : deque A :=
  mkDeque (firstn (maxlen d) (x :: items d)) (maxlen d).

(** ** Results of a Python computation *)

Inductive exn : Type := IndexError | TypeError | AttributeError | Exception.

Inductive res (A : Type) : Type :=
| Ret (a : A)
| Exc (e : exn)
| Hang.
Arguments Ret {A} _.
Arguments Exc {A} _.
Arguments Hang {A}.

(** A state monad with Python exceptions: an exception keeps the state. *)
Definition St (S A : Type) := S -> res A * S.

Definition ret {S A} (a : A) : St S A := fun s => (Ret a, s).
Definition raise {S A} (e : exn) : St S A := fun s => (Exc e, s).
Definition hang {S A} : St S A := fun s => (Hang, s).
Definition bind {S A B} (m : St S A) (k : A -> St S B) : St S B :=
  fun s => match m s with
           | (Ret a, s') => k a s'
           | (Exc e, s') => (Exc e, s')
           | (Hang, s') => (Hang, s')
           end.
Definition get_st {S} : St S S := fun s => (Ret s, s).
Definition put_st {S} (s : S) : St S unit := fun _ => (Ret tt, s).

Declare Scope st_scope.
Notation "x <- m ;; k" := (bind m (fun x => k))
  (at level 61, m at next level, right associativity) : st_scope.
Notation "m ;; k" := (bind m (fun _ => k))
  (at level 61, right associativity) : st_scope.
Open Scope st_scope.

(** ** Msgbox *)

Record msgbox := mkMsgbox {
  m_h : Z;
  m_w : Z;
  m_history : deque line;
  m_history_index : Z
}.

(** [Msgbox.__init__]. *)
Definition new_msgbox (h w : Z) : msgbox :=
  mkMsgbox h w (mkDeque [] (Z.to_nat (h * 10))) 0.

Definition page_size (m : msgbox) : Z := m_h m / 3.

Definition set_history (m : msgbox) (d : deque line) : msgbox :=
  mkMsgbox (m_h m) (m_w m) d (m_history_index m).

Definition set_index (m : msgbox) (i : Z) : msgbox :=
  mkMsgbox (m_h m) (m_w m) (m_history m) i.

(** [self.history.appendleft(l)]. *)
Definition new_line (l : line) : St msgbox unit :=
  fun m => (Ret tt, set_history m (appendleft l (m_history m))).

(** [self.history[0].append(c)]: an [IndexError] on an empty deque. *)
Definition push_chunk (c : pystr * atom) : St msgbox unit :=
  fun m =>
    match items (m_history m) with
    | [] => (Exc IndexError, m)
    | l :: rest =>
        (Ret tt, set_history m (mkDeque ((l ++ [c]) :: rest) (maxlen (m_history m))))
    end.

(** The [while True] loop of [append] on a phrase that is a [str]; returns
    the new [line_position]. *)
Fixpoint wrap_loop (fuel : nat) (w : Z) (phrase : pystr) (style : atom) (pos : Z)
  : St msgbox Z :=
  match fuel with
  | O => hang
  | S fuel' =>
      let phrase := if pos =? 2 then lstrip phrase else phrase in
      let remaining_space := w - pos in
      if py_len phrase <=? remaining_space then
        push_chunk (phrase, style);; ret (pos + py_len phrase)
      else
        let last_space := rfind space (py_take remaining_space phrase) in
        phrase' <-
          (if 0 <? last_space then
             push_chunk (py_take last_space phrase, style);;
             ret (py_drop last_space phrase)
           else if pos =? 2 then
             push_chunk (py_take remaining_space phrase, style);;
             ret (py_drop remaining_space phrase)
           else ret phrase);;
        new_line [([space; space], AInt A_NORMAL)];;
        wrap_loop fuel' w phrase' style 2
  end.

(** The first pass of the loop on [phrase = chunk[0]]: a non-[str] phrase
    fails at [phrase.lstrip()] (position 2) or at [len(phrase)]. *)
Definition wrap_phrase (fuel : nat) (w : Z) (phrase : atom) (style : atom) (pos : Z)
  : St msgbox Z :=
  match phrase with
  | AStr s => wrap_loop fuel w s style pos
  | AInt _ => if pos =? 2 then raise AttributeError else raise TypeError
  end.

(** One iteration of [for chunk in chunks]. *)
Definition append_chunk (fuel : nat) (w : Z) (c : chunk) (pos : Z) : St msgbox Z :=
  match c with
  | CStr s => wrap_phrase fuel w (AStr s) (AInt A_NORMAL) pos
  | CTuple its =>
      match nth_error its 0 with
      | None => raise IndexError
      | Some p =>
          match nth_error its 1 with
          | None => raise IndexError
          | Some st => wrap_phrase fuel w p st pos
          end
      end
  | COther => raise Exception
  end.

Fixpoint append_chunks (fuel : nat) (w : Z) (cs : list chunk) (pos : Z) : St msgbox Z :=
  match cs with
  | [] => ret pos
  | c :: cs' => pos' <- append_chunk fuel w c pos;; append_chunks fuel w cs' pos'
  end.

(** [Msgbox.append], called as [append( *chunks, sigil=sigil)]; [fuel] bounds each [while True] loop. *)
Definition append (fuel : nat) (chunks : list chunk) (sigil : pystr) : St msgbox unit :=
  m <- get_st;;
  new_line [(sigil ++ [space], AInt A_NORMAL)];;
  _ <- append_chunks fuel (m_w m) chunks 2;;
  ret tt.

(** ** Msgbox.draw *)

(** What [draw] sends to the screen: the paging indicator [addstr(y, x, "…")],
    a [move(y, 0)] before each line, and [addstr(phrase, attr)] per chunk. *)
Inductive event : Type :=
| Indicator (row col : Z)
| MoveTo (row : Z)
| AddStr (s : pystr) (attr : Z).

Definition rbind {A B} (r : res A) (k : A -> res B) : res B :=
  match r with
  | Ret a => k a
  | Exc e => Exc e
  | Hang => Hang
  end.

(** [chunk_style | line_style]: a [str] style makes [|] raise [TypeError]. *)
Definition style_or (cs : atom) (line_style : Z) : res Z :=
  match cs with
  | AInt z => Ret (Z.lor z line_style)
  | AStr _ => Exc TypeError
  end.

(** The staleness test [self.history_index == 0 and phrase[0] == "❱"]:
    [phrase[0]] is only read when the first operand holds. *)
Definition stale_test (not_paging : bool) (phrase : pystr) (stale : bool) : res bool :=
  if not_paging then
    match phrase with
    | [] => Exc IndexError
    | c :: _ => Ret (if c =? glyph_command then true else stale)
    end
  else Ret stale.

(** The inner loop [for (phrase, chunk_style) in line]. *)
Fixpoint draw_line (not_paging : bool) (l : line) (stale : bool) (line_style : Z)
  : res (bool * list event) :=
  match l with
  | [] => Ret (stale, [])
  | (phrase, cs) :: rest =>
      rbind (stale_test not_paging phrase stale) (fun stale' =>
      rbind (style_or cs line_style) (fun attr =>
      rbind (draw_line not_paging rest stale' line_style) (fun '(stale'', evs) =>
      Ret (stale'', AddStr phrase attr :: evs))))
  end.

(** The outer loop [for i in range(0, lines_to_print)], with [rows] the lines
    [history[i + history_index]] in order and [base = h - 1 - compensate]. *)
Fixpoint draw_rows (not_paging : bool) (base i : Z) (rows : list line)
    (stale : bool) (line_style : Z) : res (list event) :=
  match rows with
  | [] => Ret []
  | l :: rest =>
      let line_style := if stale then A_DIM else line_style in
      rbind (draw_line not_paging l stale line_style) (fun '(stale', evs) =>
      rbind (draw_rows not_paging base (i + 1) rest stale' line_style) (fun evs' =>
      Ret (MoveTo (base - i) :: evs ++ evs')))
  end.

Definition hist_len (m : msgbox) : Z := Z.of_nat (List.length (items (m_history m))).

(** [Msgbox.draw]: the events written, or the exception raised.  The rows are
    [history[history_index:]] cut to [lines_to_print] (the index is never
    negative, see [run_ops_paging]). *)
Definition draw_events (m : msgbox) : res (list event) :=
  let idx := m_history_index m in
  let compensate_paging := if idx =? 0 then 0 else 1 in
  let indicator := if idx =? 0 then [] else [Indicator (m_h m - 1) (m_w m / 2)] in
  let lines_to_print := Z.min (m_h m - compensate_paging) (hist_len m - idx) in
  let rows := firstn (Z.to_nat lines_to_print) (skipn (Z.to_nat idx) (items (m_history m))) in
  rbind (draw_rows (idx =? 0) (m_h m - 1 - compensate_paging) 0 rows false A_NORMAL)
    (fun evs => Ret (indicator ++ evs)).

(** [draw] as a statement: it changes no modelled state. *)
Definition draw : St msgbox unit :=
  fun m => match draw_events m with
           | Ret _ => (Ret tt, m)
           | Exc e => (Exc e, m)
           | Hang => (Hang, m)
           end.

(** [Msgbox.page_up] and [Msgbox.page_down]. *)
Definition page_up : St msgbox unit :=
  fun m =>
    if page_size m <? hist_len m - m_history_index m
    then draw (set_index m (m_history_index m + page_size m))
    else (Ret tt, m).

Definition page_down : St msgbox unit :=
  fun m =>
    if page_size m <=? m_history_index m
    then draw (set_index m (m_history_index m - page_size m))
    else (Ret tt, m).

(** A caller's sequence of calls on a message box. *)
Inductive msg_op : Type :=
| OpAppend (chunks : list chunk) (sigil : pystr)
| OpPageUp
| OpPageDown.

Definition run_op (fuel : nat) (o : msg_op) : St msgbox unit :=
  match o with
  | OpAppend cs sg => append fuel cs sg
  | OpPageUp => page_up
  | OpPageDown => page_down
  end.

Fixpoint run_ops (fuel : nat) (os : list msg_op) : St msgbox unit :=
  match os with
  | [] => ret tt
  | o :: os' => run_op fuel o;; run_ops fuel os'
  end.

(** ** Cmdbox *)

Record cmdbox := mkCmdbox {
  c_w : Z;
  c_chars : pystr;
  c_history : deque pystr
}.

(** [Cmdbox.__init__]: [deque(maxlen=10)]. *)
Definition new_cmdbox (w : Z) : cmdbox := mkCmdbox w [] (mkDeque [] 10).

Record window := mkWindow {
  debug_mode : bool;
  msgbox_of : msgbox;
  cmdbox_of : cmdbox
}.

Definition set_msgbox (win : window) (m : msgbox) : window :=
  mkWindow (debug_mode win) m (cmdbox_of win).

Definition set_chars (win : window) (cs : pystr) : window :=
  let c := cmdbox_of win in
  mkWindow (debug_mode win) (msgbox_of win) (mkCmdbox (c_w c) cs (c_history c)).

Definition set_cmd_history (win : window) (d : deque pystr) : window :=
  let c := cmdbox_of win in
  mkWindow (debug_mode win) (msgbox_of win) (mkCmdbox (c_w c) (c_chars c) d).

(** A call on [self.parent.msgbox]. *)
Definition on_msgbox {A} (a : St msgbox A) : St window A :=
  fun win => let '(r, m') := a (msgbox_of win) in (r, set_msgbox win m').

(** [Cmdbox.draw] and the [curses] calls of [get] only touch the screen. *)
Definition cmd_draw : St window unit := ret tt.

Definition KEY_DOWN : Z := 258.
Definition KEY_UP : Z := 259.
Definition KEY_BACKSPACE : Z := 263.
Definition KEY_NPAGE : Z := 338.
Definition KEY_PPAGE : Z := 339.

Section Get.
(** The callbacks installed with [register], the interactive console of
    [debug_interactive], and [curses.keyname] for the keys [curses.has_key]
    knows. *)
Variable custom_commands : Z -> option (St window unit).
Variable debug_interactive : St window unit.
Variable keyname : Z -> option pystr.

(** [msg = f"unhandled key: {key}{name}"]. *)
Definition unhandled_msg (k : Z) : pystr :=
  let name := match keyname k with
              | Some n => of_ascii " (" ++ n ++ of_ascii ")"
              | None => []
              end in
  of_ascii "unhandled key: " ++ py_str_int k ++ name.

(** The [while True] key loop of [Cmdbox.get]; [keys] are the values
    [getch] returns, in order.  Returns the keys after the enter key. *)
Fixpoint key_loop (fuel : nat) (keys : list Z) (history_index : Z) : St window (list Z) :=
  match keys with
  | [] => hang
  | k :: ks =>
      win <- get_st;;
      let c := cmdbox_of win in
      if (32 <=? k) && (k <=? 126) then
        put_st (set_chars win (c_chars c ++ [k]));; cmd_draw;;
        key_loop fuel ks history_index
      else if (k =? 127) || (k =? KEY_BACKSPACE) then
        (if negb (Nat.eqb (List.length (c_chars c)) 0)
         then put_st (set_chars win (removelast (c_chars c)));; cmd_draw
         else ret tt);;
        key_loop fuel ks history_index
      else if k =? KEY_UP then
        hi <- (if history_index <? Z.of_nat (List.length (items (c_history c))) - 1
               then put_st (set_chars win
                      (nth (Z.to_nat (history_index + 1)) (items (c_history c)) []));;
                    cmd_draw;; ret (history_index + 1)
               else ret history_index);;
        key_loop fuel ks hi
      else if k =? KEY_DOWN then
        hi <- (if 0 <? history_index
               then put_st (set_chars win
                      (nth (Z.to_nat (history_index - 1)) (items (c_history c)) []));;
                    cmd_draw;; ret (history_index - 1)
               else ret history_index);;
        key_loop fuel ks hi
      else if k =? KEY_PPAGE then
        on_msgbox page_up;; key_loop fuel ks history_index
      else if k =? KEY_NPAGE then
        on_msgbox page_down;; key_loop fuel ks history_index
      else if k =? 13 then
        ret ks
      else if k =? 4 then
        (if debug_mode win then debug_interactive else ret tt);;
        key_loop fuel ks history_index
      else
        match custom_commands k with
        | Some f => f;; key_loop fuel ks history_index
        | None =>
            (if debug_mode win
             then on_msgbox (append fuel [CStr (unhandled_msg k)] [glyph_error];; draw)
             else ret tt);;
            key_loop fuel ks history_index
        end
  end.

(** [if prompt != None]: echo the prompt and redraw the message box. *)
Definition prompt_phase (fuel : nat) (prompt : option chunk) : St window unit :=
  match prompt with
  | None => ret tt
  | Some p => on_msgbox (append fuel [p] [glyph_prompt];; draw)
  end.

(** [history.appendleft(self.chars)] unless equal to [history[0]]. *)
Definition push_history (chars : pystr) (d : deque pystr) : deque pystr :=
  match items d with
  | [] => appendleft chars d
  | x :: _ => if list_eq_dec Z.eq_dec chars x then d else appendleft chars d
  end.

(** The code of [get] after the key loop. *)
Definition submit (fuel : nat) : St window pystr :=
  win <- get_st;;
  let command := lstrip (c_chars (cmdbox_of win)) in
  (match command with
   | [] => ret tt
   | _ :: _ =>
       on_msgbox (append fuel [CTuple [AStr command; AInt A_BOLD]] [glyph_command]);;
       win' <- get_st;;
       put_st (set_cmd_history win'
                 (push_history (c_chars (cmdbox_of win')) (c_history (cmdbox_of win'))))
   end);;
  win'' <- get_st;;
  put_st (set_chars win'' []);;
  cmd_draw;;
  ret command.

(** [Cmdbox.get(prompt)]: the command and the keys left unread. *)
Definition get (fuel : nat) (prompt : option chunk) (keys : list Z)
  : St window (pystr * list Z) :=
  prompt_phase fuel prompt;;
  win <- get_st;;
  put_st (set_chars win []);;
  rest <- key_loop fuel keys (-1);;
  command <- submit fuel;;
  ret (command, rest).

End Get.

(** [Cmdbox.draw]: the text written at the start of the command box.  A
    buffer as long as the box shows ["…"] and its last [w - 2] characters,
    [self.chars[-(self.w - 2):]] with Python's slicing. *)
Definition glyph_ellipsis : Z := 8230.  (* "…" *)

Definition cmd_display (c : cmdbox) : pystr :=
  if py_len (c_chars c) <? c_w c then c_chars c
  else glyph_ellipsis :: py_drop (- (c_w c - 2)) (c_chars c).

(** [Cmdbox.register(val, func)]: [self.custom_commands[val] = func]. *)
Definition register (val : Z) (func : St window unit)
    (custom_commands : Z -> option (St window unit)) : Z -> option (St window unit) :=
  fun k => if k =? val then Some func else custom_commands k.

(** [Window.say(message)]: append with the default sigil ["·"], then redraw. *)
Definition say (fuel : nat) (message : chunk) : St window unit :=
  on_msgbox (append fuel [message] [glyph_dot];; draw).

(** ** Inputs and predicates used in the statements *)

Definition long_word : pystr :=
  Eval vm_compute in of_ascii "supercalifragilisticexpialidocious".

(** The first line of an [append] call, and a continuation line. *)
Definition first_line (sigil frag : pystr) : line :=
  [(sigil ++ [space], AInt A_NORMAL); (frag, AInt A_NORMAL)].

Definition cont_line (frag : pystr) : line :=
  [([space; space], AInt A_NORMAL); (frag, AInt A_NORMAL)].

(** The text of a chunk, when it has one. *)
Definition chunk_text_len (c : chunk) : nat :=
  match c with
  | CStr s => List.length s
  | CTuple (AStr s :: _) => List.length s
  | _ => O
  end.

(** [append] on these arguments never returns nor raises, whatever the fuel. *)
Definition append_runs_forever (chunks : list chunk) (sigil : pystr) (m : msgbox) : Prop :=
  forall fuel, fst (append fuel chunks sigil m) = Hang.

Definition sample_chunks : list chunk :=
  [CStr (of_ascii "You see a "); CTuple [AStr (of_ascii "rude goblin"); AInt 1];
   CStr (of_ascii " nearby.")].

(** A message box two columns wide, as [Msgbox(parent, 24, 2, ...)] builds it. *)
Definition box_w2 : msgbox := new_msgbox 24 2.

Definition is_empty (s : pystr) : bool :=
  match s with [] => true | _ :: _ => false end.

(** A window as [Window] builds it, with a 20 by 10 message box, and the
    keys ['g'], ['o']. *)
Definition go_window : window := mkWindow false (new_msgbox 20 10) (new_cmdbox 10).
Definition go_keys : list Z := [103; 111].

(** [get] with no custom command, no debug console and no key names. *)
Definition plain_get (fuel : nat) (prompt : option chunk) (keys : list Z)
  : St window (pystr * list Z) :=
  get (fun _ => None) (ret tt) (fun _ => None) fuel prompt keys.

(** A key in the printable ASCII range [32 <= key <= 126]. *)
Definition printable (k : Z) : bool := (32 <=? k) && (k <=? 126).

(** What [append] may change in a message box: only the history, which keeps
    its bound and, below the bound, never shortens. *)
Definition keeps_paging (m m' : msgbox) : Prop :=
  m_h m' = m_h m /\ m_w m' = m_w m /\ m_history_index m' = m_history_index m /\
  maxlen (m_history m') = maxlen (m_history m) /\
  ((List.length (items (m_history m)) <= maxlen (m_history m))%nat ->
   (List.length (items (m_history m)) <= List.length (items (m_history m'))
    <= maxlen (m_history m'))%nat).

Definition grows {A} (c : St msgbox A) : Prop :=
  forall m r m', c m = (r, m') -> keeps_paging m m'.

(** The paging offset lies in [0, len(history)]. *)
Definition paging_inv (m : msgbox) : Prop :=
  0 <= m_h m /\ 0 <= m_history_index m <= hist_len m /\
  (List.length (items (m_history m)) <= maxlen (m_history m))%nat.

(** The text of a line after its prefix chunk (the sigil or the indent). *)
Definition line_text (l : line) : pystr := List.concat (map fst (tl l)).

(** The phrase of a chunk [append] lays out ([chunk[0]] for a tuple). *)
Definition chunk_phrase (c : chunk) : pystr :=
  match c with
  | CStr s => s
  | CTuple (AStr s :: _) => s
  | _ => []
  end.

(** The keys a branch of the key loop's [match] takes before the custom
    commands are looked at. *)
Definition handled_key (k : Z) : bool :=
  printable k || ((k =? 127) || (k =? KEY_BACKSPACE)) || (k =? KEY_UP) || (k =? KEY_DOWN)
  || (k =? KEY_PPAGE) || (k =? KEY_NPAGE) || (k =? 13) || (k =? 4).

(** The characters of a string that are not whitespace, in order. *)
Definition non_space (s : pystr) : pystr := filter (fun c => negb (is_space c)) s.

(** No two neighbouring entries of a list are equal. *)
Fixpoint no_adj_dup (l : list pystr) : Prop :=
  match l with
  | x :: (y :: _) as t => x <> y /\ no_adj_dup t
  | _ => True
  end.

(** The history as the lines [L] built by [append] so far, newest first, in
    front of the lines [old] it had before, cut to [M]; the line being filled
    has its leading chunk. *)
Definition text_inv (M : nat) (old L : list line) (m : msgbox) : Prop :=
  m_history m = mkDeque (firstn M (L ++ old)) M /\
  exists cur rest, L = cur :: rest /\ cur <> [].

Definition lines_text (L : list line) : pystr := List.concat (map line_text (rev L)).

(** A message box three rows high holding three one-word messages, not
    paged. *)
Definition three_line_box : msgbox :=
  mkMsgbox 3 10
    (mkDeque [[([glyph_dot; space], AInt A_NORMAL); (of_ascii "c", AInt A_NORMAL)];
              [([glyph_dot; space], AInt A_NORMAL); (of_ascii "b", AInt A_NORMAL)];
              [([glyph_dot; space], AInt A_NORMAL); (of_ascii "a", AInt A_NORMAL)]] 30) 0.

(** A window whose command history holds ["c"], ["b"], ["a"], newest first. *)
Definition abc_window : window :=
  mkWindow false (new_msgbox 20 10)
    (mkCmdbox 10 [] (mkDeque [of_ascii "c"; of_ascii "b"; of_ascii "a"] 10)).

(** ** Measures and helper lemmas *)

(** The number of characters a line puts on the screen. *)
Fixpoint line_len (l : line) : Z :=
  match l with
  | [] => 0
  | (p, _) :: rest => py_len p + line_len rest
  end.

(** The history after a failed or finished call is a window of width [maxlen]
    on the lines built so far, newest first. *)
Definition wrap_inv (w : Z) (old : list line) (M : nat) (pos : Z) (m : msgbox) : Prop :=
  m_w m = w /\ maxlen (m_history m) = M /\ 2 <= pos <= w /\
  exists cur done,
    items (m_history m) = firstn M (cur :: done ++ old) /\
    line_len cur <= pos /\ Forall (fun l => line_len l <= w) done.

Definition res_pos (w : Z) (r : res Z) : Z :=
  match r with Ret p => p | _ => w end.

Lemma firstn_cons_firstn {A} (n : nat) (x : A) (l : list A) :
  firstn n (x :: firstn n l) = firstn n (x :: l).
Proof.
  destruct n as [|n]; [reflexivity|].
  change (x :: firstn n (firstn (S n) l) = x :: firstn n l).
  rewrite firstn_firstn. f_equal. f_equal. lia.
Qed.

Lemma py_len_app (a b : pystr) : py_len (a ++ b) = py_len a + py_len b.
Proof. unfold py_len. rewrite length_app. lia. Qed.

Lemma line_len_app (l : line) (c : pystr * atom) :
  line_len (l ++ [c]) = line_len l + py_len (fst c).
Proof.
  induction l as [|[p s] l IH]; destruct c as [q t]; cbn.
  - lia.
  - cbn in IH. rewrite IH. lia.
Qed.

Lemma py_len_nonneg (s : pystr) : 0 <= py_len s.
Proof. unfold py_len. lia. Qed.

Lemma py_take_len (n : Z) (s : pystr) :
  0 <= n -> py_len (py_take n s) <= n /\ py_len (py_take n s) <= py_len s.
Proof.
  intros Hn. unfold py_take, py_len. rewrite (proj2 (Z.leb_le 0 n) Hn).
  rewrite length_firstn. lia.
Qed.

Lemma py_take_prefix_len (n : Z) (s : pystr) : py_len (py_take n s) <= py_len s.
Proof.
  unfold py_take, py_len. destruct (0 <=? n); rewrite length_firstn; lia.
Qed.

Lemma py_drop_len (n : Z) (s : pystr) :
  0 <= n -> py_len (py_drop n s) = Z.max 0 (py_len s - n).
Proof.
  intros Hn. unfold py_drop, py_len. rewrite (proj2 (Z.leb_le 0 n) Hn).
  rewrite length_skipn. lia.
Qed.

Lemma py_len_cons (x : Z) (t : pystr) : py_len (x :: t) = 1 + py_len t.
Proof. unfold py_len. cbn [List.length]. lia. Qed.

Lemma rfind_aux_lt (c : Z) (s : pystr) (i best : Z) :
  best < i -> rfind_aux c s i best < i + py_len s.
Proof.
  revert i best. induction s as [|x t IH]; intros i best Hb.
  - unfold py_len. cbn. lia.
  - cbn [rfind_aux]. rewrite py_len_cons.
    assert (H : rfind_aux c t (i + 1) (if x =? c then i else best) < i + 1 + py_len t)
      by (apply IH; destruct (x =? c); lia).
    lia.
Qed.

Lemma rfind_lt (c : Z) (s : pystr) : rfind c s < py_len s.
Proof. unfold rfind. pose proof (rfind_aux_lt c s 0 (-1)). lia. Qed.

Lemma lstrip_len (s : pystr) : py_len (lstrip s) <= py_len s.
Proof.
  induction s as [|x t IH]; cbn [lstrip]; [lia|].
  rewrite py_len_cons. destruct (is_space x); [lia|rewrite py_len_cons; lia].
Qed.

Lemma bind_cases {S A B} (a : St S A) (k : A -> St S B) (s s' : S) (r : res B) :
  bind a k s = (r, s') ->
  (exists x s1, a s = (Ret x, s1) /\ k x s1 = (r, s')) \/
  (exists e, a s = (Exc e, s') /\ r = Exc e) \/
  (a s = (Hang, s') /\ r = Hang).
Proof.
  unfold bind. destruct (a s) as [[x|e|] s1]; intros H.
  - left. eauto.
  - right; left. inversion H; subst. eauto.
  - right; right. inversion H; subst. auto.
Qed.

Ltac bind_split H :=
  apply bind_cases in H;
  destruct H as [(?x & ?s1 & ?Ha & ?Hk) | [(?e & ?Ha & ?Hr) | (?Ha & ?Hr)]].

Tactic Notation "split_bind" hyp(H) "as" ident(x) ident(Ha) ident(Hk) :=
  apply bind_cases in H;
  let s := fresh "s" in let e := fresh "e" in
  destruct H as [(x & s & Ha & Hk) | [(e & Ha & Hk) | (Ha & Hk)]].

Lemma wrap_inv_weaken (w : Z) (old : list line) (M : nat) (pos : Z) (m : msgbox) :
  wrap_inv w old M pos m -> wrap_inv w old M w m.
Proof.
  intros (Hw & HM & Hp & cur & done & Hi & Hc & Hd). repeat split; auto; try lia.
  exists cur, done. repeat split; auto. lia.
Qed.

Lemma push_chunk_inv (w : Z) (old : list line) (M : nat) (pos : Z) (m m' : msgbox)
    (c : pystr * atom) (r : res unit) :
  wrap_inv w old M pos m -> 2 <= pos + py_len (fst c) <= w ->
  push_chunk c m = (r, m') ->
  (r = Ret tt /\ wrap_inv w old M (pos + py_len (fst c)) m') \/
  (r = Exc IndexError /\ m' = m).
Proof.
  intros (Hw & HM & Hp & cur & done & Hi & Hc & Hd) Hb H.
  unfold push_chunk in H. destruct (items (m_history m)) as [|l rest] eqn:E.
  - right. injection H as <- <-. auto.
  - left. injection H as <- <-. split; [reflexivity|].
    destruct M as [|M']; [cbn in Hi; discriminate|].
    cbn in Hi. inversion Hi; subst.
    unfold wrap_inv; cbn. repeat split; auto; try lia.
    exists (cur ++ [c]), done. repeat split; auto.
    rewrite line_len_app. lia.
Qed.

Lemma new_line_inv (w : Z) (old : list line) (M : nat) (pos : Z) (m m' : msgbox) (r : res unit) :
  wrap_inv w old M pos m ->
  new_line [([space; space], AInt A_NORMAL)] m = (r, m') ->
  r = Ret tt /\ wrap_inv w old M 2 m'.
Proof.
  intros (Hw & HM & Hp & cur & done & Hi & Hc & Hd) H.
  unfold new_line in H. injection H as <- <-. split; [reflexivity|].
  unfold wrap_inv; cbn. repeat split; auto; try lia.
  exists [([space; space], AInt A_NORMAL)], (cur :: done). repeat split.
  - rewrite Hi, HM, firstn_cons_firstn. reflexivity.
  - cbn. lia.
  - constructor; auto. lia.
Qed.

Lemma push_then_ret_inv (w : Z) (old : list line) (M : nat) (pos : Z) (m m1 : msgbox)
    (c : pystr * atom) {A} (v : A) (r1 : res A) :
  wrap_inv w old M pos m -> 2 <= pos + py_len (fst c) <= w ->
  (push_chunk c;; ret v) m = (r1, m1) ->
  (r1 = Ret v /\ wrap_inv w old M (pos + py_len (fst c)) m1) \/
  ((r1 = Exc IndexError) /\ wrap_inv w old M pos m1).
Proof.
  intros Hinv Hb H. bind_split H.
  - destruct (push_chunk_inv _ _ _ _ _ _ _ _ Hinv Hb Ha) as [[_ Hi'] | [Hx _]];
      [|discriminate].
    unfold ret in Hk. injection Hk as <- <-. left. auto.
  - destruct (push_chunk_inv _ _ _ _ _ _ _ _ Hinv Hb Ha) as [[Hx _] | [He ->]];
      [discriminate|].
    injection He as ->. subst. right. auto.
  - unfold push_chunk in Ha. destruct (items (m_history m)); discriminate.
Qed.

Lemma wrap_loop_inv (w : Z) (old : list line) (M : nat) :
  3 <= w ->
  forall fuel p st pos m r m',
  wrap_inv w old M pos m ->
  wrap_loop fuel w p st pos m = (r, m') ->
  wrap_inv w old M (res_pos w r) m'.
Proof.
  intros Hw3 fuel. induction fuel as [|fuel IH]; intros p st pos m r m' Hinv H.
  - cbn in H. injection H as <- <-. eapply wrap_inv_weaken; eauto.
  - cbn [wrap_loop] in H.
    set (p' := if pos =? 2 then lstrip p else p) in H.
    pose proof Hinv as (Hw & HM & Hp & _).
    pose proof (py_len_nonneg p') as Hp0.
    destruct (py_len p' <=? w - pos) eqn:Efit.
    + apply Z.leb_le in Efit.
      destruct (push_then_ret_inv w old M pos m m' (p', st) (pos + py_len p') r Hinv)
        as [[-> Hi'] | [-> Hi']]; cbn; auto; try lia.
      eapply wrap_inv_weaken; eauto.
    + apply Z.leb_gt in Efit.
      set (ls := rfind space (py_take (w - pos) p')) in H.
      assert (Hls : ls < w - pos /\ ls < py_len p').
      { pose proof (rfind_lt space (py_take (w - pos) p')).
        pose proof (py_take_len (w - pos) p' ltac:(lia)).
        pose proof (py_take_prefix_len (w - pos) p'). fold ls in H0. lia. }
      assert (Hstep : forall r1 m1,
        (if 0 <? ls then push_chunk (py_take ls p', st);; ret (py_drop ls p')
         else if pos =? 2 then
           push_chunk (py_take (w - pos) p', st);; ret (py_drop (w - pos) p')
         else ret p') m = (r1, m1) ->
        exists q', wrap_inv w old M q' m1).
      { intros r1 m1 H1.
        destruct (0 <? ls) eqn:El; [|destruct (pos =? 2) eqn:E2].
        - apply Z.ltb_lt in El.
          pose proof (py_take_len ls p' ltac:(lia)).
          pose proof (py_len_nonneg (py_take ls p')).
          destruct (push_then_ret_inv w old M pos m m1 (py_take ls p', st)
                      (py_drop ls p') r1 Hinv) as [[_ Hi'] | [_ Hi']];
            cbn; eauto; lia.
        - apply Z.eqb_eq in E2.
          pose proof (py_take_len (w - pos) p' ltac:(lia)).
          pose proof (py_len_nonneg (py_take (w - pos) p')).
          destruct (push_then_ret_inv w old M pos m m1 (py_take (w - pos) p', st)
                      (py_drop (w - pos) p') r1 Hinv) as [[_ Hi'] | [_ Hi']];
            cbn; eauto; lia.
        - unfold ret in H1. injection H1 as <- <-. eauto. }
      bind_split H.
      * destruct (Hstep _ _ Ha) as [q' Hq].
        bind_split Hk.
        -- destruct (new_line_inv _ _ _ _ _ _ _ Hq Ha0) as [_ Hn].
           eapply IH; eauto.
        -- unfold new_line in Ha0; discriminate.
        -- unfold new_line in Ha0; discriminate.
      * destruct (Hstep _ _ Ha) as [q' Hq]. subst. eapply wrap_inv_weaken; eauto.
      * destruct (Hstep _ _ Ha) as [q' Hq]. subst. eapply wrap_inv_weaken; eauto.
Qed.

Lemma raise_inv (w : Z) (old : list line) (M : nat) (pos : Z) (m m' : msgbox) e (r : res Z) :
  wrap_inv w old M pos m -> raise e m = (r, m') -> wrap_inv w old M (res_pos w r) m'.
Proof.
  intros Hinv H. unfold raise in H. injection H as <- <-. eapply wrap_inv_weaken; eauto.
Qed.

Lemma append_chunk_inv (w : Z) (old : list line) (M : nat) :
  3 <= w ->
  forall fuel c pos m r m',
  wrap_inv w old M pos m ->
  append_chunk fuel w c pos m = (r, m') ->
  wrap_inv w old M (res_pos w r) m'.
Proof.
  intros Hw3 fuel c pos m r m' Hinv H.
  destruct c as [s|its|]; cbn [append_chunk wrap_phrase] in H.
  - eapply wrap_loop_inv; eauto.
  - destruct (nth_error its 0) as [p|]; [|eapply raise_inv; eauto].
    destruct (nth_error its 1) as [st|]; [|eapply raise_inv; eauto].
    destruct p as [s|z]; cbn [wrap_phrase] in H; [eapply wrap_loop_inv; eauto|].
    destruct (pos =? 2); eapply raise_inv; eauto.
  - eapply raise_inv; eauto.
Qed.

Lemma append_chunks_inv (w : Z) (old : list line) (M : nat) :
  3 <= w ->
  forall fuel cs pos m r m',
  wrap_inv w old M pos m ->
  append_chunks fuel w cs pos m = (r, m') ->
  wrap_inv w old M (res_pos w r) m'.
Proof.
  intros Hw3 fuel cs. induction cs as [|c cs IH]; intros pos m r m' Hinv H.
  - cbn in H. unfold ret in H. injection H as <- <-. exact Hinv.
  - cbn [append_chunks] in H. bind_split H.
    + eapply IH; [|exact Hk]. exact (append_chunk_inv w old M Hw3 fuel c pos m _ _ Hinv Ha).
    + subst. exact (append_chunk_inv w old M Hw3 fuel c pos m _ _ Hinv Ha).
    + subst. exact (append_chunk_inv w old M Hw3 fuel c pos m _ _ Hinv Ha).
Qed.

(** The state right after [append] has pushed the sigil line. *)
Lemma append_start_inv (m : msgbox) (sigil : pystr) :
  3 <= m_w m -> (List.length sigil <= 1)%nat ->
  wrap_inv (m_w m) (items (m_history m)) (maxlen (m_history m)) 2
    (set_history m (appendleft [(sigil ++ [space], AInt A_NORMAL)] (m_history m))).
Proof.
  intros Hw Hs. unfold wrap_inv. cbn. repeat split; auto; try lia.
  exists [(sigil ++ [space], AInt A_NORMAL)], []. repeat split; auto.
  cbn. rewrite py_len_app. unfold py_len at 1. cbn. lia.
Qed.

(** ** Claims about [Msgbox.append] *)

(** C1: for a width [w > 2] and a one-glyph sigil, every line [append]
    produces, prefix chunk included, has at most [w] characters: the history
    afterwards is the deque window on [new ++ old] with every line of [new]
    within the width, whether the call returns, raises or runs on. *)
Theorem append_lines_fit_width :
  forall fuel chunks sigil m r m',
  2 < m_w m -> (List.length sigil <= 1)%nat ->
  append fuel chunks sigil m = (r, m') ->
  exists new,
    items (m_history m') = firstn (maxlen (m_history m)) (new ++ items (m_history m)) /\
    Forall (fun l => line_len l <= m_w m) new.
Proof.
  intros fuel chunks sigil m r m' Hw Hs H.
  pose proof (append_start_inv m sigil ltac:(lia) Hs) as Hinv0.
  unfold append, bind at 1, get_st in H.
  bind_split H; [|unfold new_line in Ha; discriminate..].
  unfold new_line in Ha. injection Ha as <- <-.
  bind_split Hk;
  [unfold ret in *; match goal with E : (Ret tt, _) = (_, _) |- _ => injection E as <- <- end
  | | ];
  pose proof (append_chunks_inv (m_w m) _ _ ltac:(lia) fuel chunks 2 _ _ _ Hinv0 Ha)
    as (_ & HM & Hp & cur & done & Hi & Hc & Hd);
  exists (cur :: done); (split; [exact Hi | constructor; auto; lia]).
Qed.

(** C8: the single chunk [long_word] at width 10 is cut into fragments of
    exactly [10 - 2 = 8] characters, the last one excepted, on successive
    lines; put together they give back the word.  Any earlier history and any
    sigil; a deque that keeps at least one line; five passes of the loop. *)
Theorem long_word_hard_split :
  forall fuel m sigil,
  m_w m = 10 -> (1 <= maxlen (m_history m))%nat -> (5 <= fuel)%nat ->
  exists f1 fs,
    (1 <= List.length fs)%nat /\
    Forall (fun f => List.length f = 8%nat) (removelast (f1 :: fs)) /\
    List.concat (f1 :: fs) = long_word /\
    append fuel [CStr long_word] sigil m =
      (Ret tt, set_history m
        (mkDeque (firstn (maxlen (m_history m))
                    (rev (first_line sigil f1 :: map cont_line fs) ++ items (m_history m)))
                 (maxlen (m_history m)))).
Proof.
  intros fuel [h w [its M] idx] sigil Hw HM Hf. cbn in Hw, HM |- *. subst w.
  destruct M as [|M]; [lia|].
  do 5 (destruct fuel as [|fuel]; [lia|]).
  exists (firstn 8 long_word),
    [firstn 8 (skipn 8 long_word); firstn 8 (skipn 16 long_word);
     firstn 8 (skipn 24 long_word); skipn 32 long_word].
  split; [cbn; lia|]. split; [repeat constructor|]. split; [reflexivity|].
  unfold append, bind, get_st, new_line, appendleft, ret. simpl.
  repeat rewrite firstn_cons_firstn. reflexivity.
Qed.

(** ** Termination of the wrap loop *)

Lemma push_ret_not_hang {A} (c : pystr * atom) (v : A) (m m' : msgbox) (r : res A) :
  (push_chunk c;; ret v) m = (r, m') -> r <> Hang.
Proof.
  intros H. bind_split H.
  - unfold ret in Hk. injection Hk as <- _. discriminate.
  - subst. discriminate.
  - unfold push_chunk in Ha. destruct (items (m_history m)); discriminate.
Qed.

Lemma wrap_loop_ret_ge_2 (w : Z) :
  forall fuel p st pos m q m',
  2 <= pos -> wrap_loop fuel w p st pos m = (Ret q, m') -> 2 <= q.
Proof.
  induction fuel as [|fuel IH]; intros p st pos m q m' Hp H; [discriminate|].
  cbn [wrap_loop] in H.
  destruct (py_len _ <=? w - pos).
  - bind_split H; try discriminate.
    unfold ret in Hk. injection Hk as <- _.
    match goal with |- 2 <= pos + py_len ?s => pose proof (py_len_nonneg s) end. lia.
  - split_bind H as x Ha Hk; try discriminate.
    split_bind Hk as y Hb Hc; try discriminate.
    eapply IH; [|exact Hc]. lia.
Qed.

(** Each pass of the loop lowers [2 * len(phrase) + (pos != 2)], or leaves it. *)
Lemma wrap_loop_not_hang (w : Z) :
  3 <= w ->
  forall fuel p st pos m r m',
  2 <= pos ->
  2 * py_len p + (if pos =? 2 then 0 else 1) < Z.of_nat fuel ->
  wrap_loop fuel w p st pos m = (r, m') -> r <> Hang.
Proof.
  intros Hw3 fuel. induction fuel as [|fuel IH]; intros p st pos m r m' Hp Hf H.
  - pose proof (py_len_nonneg p). destruct (pos =? 2); lia.
  - cbn [wrap_loop] in H.
    set (p' := if pos =? 2 then lstrip p else p) in H.
    assert (Hp' : py_len p' <= py_len p)
      by (unfold p'; destruct (pos =? 2); [apply lstrip_len | lia]).
    pose proof (py_len_nonneg p') as Hp0.
    destruct (py_len p' <=? w - pos) eqn:Efit; [eapply push_ret_not_hang; eauto|].
    apply Z.leb_gt in Efit.
    set (ls := rfind space (py_take (w - pos) p')) in H.
    assert (Hls : ls < py_len p').
    { pose proof (rfind_lt space (py_take (w - pos) p')).
      pose proof (py_take_prefix_len (w - pos) p'). fold ls in H0. lia. }
    rewrite Nat2Z.inj_succ in Hf.
    split_bind H as x Ha Hk; [|subst; discriminate|].
    + split_bind Hk as y Hn Hl; [|subst; unfold new_line in Hn; discriminate
                                 |unfold new_line in Hn; discriminate].
      unfold new_line in Hn. injection Hn as <- <-.
      eapply (IH x st 2); [lia| |exact Hl]. rewrite Z.eqb_refl, Z.add_0_r.
      destruct (0 <? ls) eqn:El; [|destruct (pos =? 2) eqn:E2].
      * apply Z.ltb_lt in El. split_bind Ha as z Hz Hr; try discriminate.
        unfold ret in Hr. injection Hr as <- _.
        rewrite py_drop_len by lia. destruct (pos =? 2); lia.
      * apply Z.eqb_eq in E2. subst pos. split_bind Ha as z Hz Hr; try discriminate.
        unfold ret in Hr. injection Hr as <- _.
        rewrite py_drop_len by lia. try rewrite Z.eqb_refl in Hf. cbv beta iota in Hf. lia.
      * unfold ret in Ha. injection Ha as <- _. unfold p' in *.
        try rewrite E2 in *. cbv beta iota in *. lia.
    + destruct (0 <? ls); [|destruct (pos =? 2)];
        [ | | unfold ret in Ha; discriminate];
        split_bind Ha as z Hz Hr; try discriminate;
        unfold push_chunk in Hz; destruct (items (m_history m)); discriminate.
Qed.

Lemma append_chunks_not_hang (w : Z) (fuel : nat) :
  3 <= w ->
  forall cs pos m r m',
  2 <= pos ->
  (forall c, In c cs -> (2 * chunk_text_len c + 2 <= fuel)%nat) ->
  append_chunks fuel w cs pos m = (r, m') -> r <> Hang.
Proof.
  intros Hw3 cs. induction cs as [|c cs IH]; intros pos m r m' Hp Hb H.
  - cbn in H. injection H as <- _. discriminate.
  - cbn [append_chunks] in H.
    assert (Hc : (2 * chunk_text_len c + 2 <= fuel)%nat) by (apply Hb; left; auto).
    assert (Hloop : forall s st q m1,
      chunk_text_len c = List.length s ->
      wrap_loop fuel w s st pos m = (q, m1) -> q <> Hang /\ (forall v, q = Ret v -> 2 <= v)).
    { intros s st q m1 Hl E. split.
      - eapply wrap_loop_not_hang; eauto. unfold py_len. destruct (pos =? 2); lia.
      - intros v ->. eapply wrap_loop_ret_ge_2; eauto. }
    split_bind H as x Ha Hk.
    + eapply IH; [| |exact Hk].
      * destruct c as [t|its|]; cbn [append_chunk wrap_phrase] in Ha.
        -- exact (proj2 (Hloop t _ _ _ eq_refl Ha) x eq_refl).
        -- destruct its as [|[t|z] [|st its]]; cbn in Ha; try discriminate.
           ++ exact (proj2 (Hloop t _ _ _ eq_refl Ha) x eq_refl).
           ++ destruct (pos =? 2); discriminate.
        -- discriminate.
      * intros c' Hin. apply Hb. right. exact Hin.
    + subst. discriminate.
    + exfalso. destruct c as [t|its|]; cbn [append_chunk wrap_phrase] in Ha.
      * exact (proj1 (Hloop t _ _ _ eq_refl Ha) eq_refl).
      * destruct its as [|[t|z] [|st its]]; cbn in Ha; try discriminate.
        -- exact (proj1 (Hloop t _ _ _ eq_refl Ha) eq_refl).
        -- destruct (pos =? 2); discriminate.
      * discriminate.
Qed.

(** C9: for a width of at least 3, [append] always finishes, returning or
    raising: with [2 * len(text) + 2] passes allowed for every chunk's loop,
    the loop never runs out.  The measure [2 * len(phrase) + (pos != 2)]
    falls at each pass ([wrap_loop_not_hang]): a pass consumes the phrase,
    or cuts at a space, or hard-splits [w - 2 >= 1] characters at the start
    of a line, or moves to a fresh line at position 2. *)
Theorem append_terminates :
  forall fuel chunks sigil m,
  3 <= m_w m ->
  (forall c, In c chunks -> (2 * chunk_text_len c + 2 <= fuel)%nat) ->
  fst (append fuel chunks sigil m) <> Hang.
Proof.
  intros fuel chunks sigil m Hw Hb.
  destruct (append fuel chunks sigil m) as [r m'] eqn:E. cbn [fst].
  unfold append, bind at 1, get_st in E.
  split_bind E as x Ha Hk; [|unfold new_line in Ha; discriminate..].
  unfold new_line in Ha. injection Ha as <- <-.
  split_bind Hk as y Hy Hr.
  - unfold ret in Hr. injection Hr as <- _. discriminate.
  - subst. discriminate.
  - exfalso. exact (append_chunks_not_hang (m_w m) fuel Hw chunks 2 _ _ _ ltac:(lia) Hb Hy eq_refl).
Qed.

(** ** Narrow widths *)

Lemma lstrip_idem (s : pystr) : lstrip (lstrip s) = lstrip s.
Proof.
  induction s as [|x t IH]; cbn; [reflexivity|].
  destruct (is_space x) eqn:E; [exact IH|]. cbn. rewrite E. reflexivity.
Qed.

Lemma push_chunk_nonempty (c : pystr * atom) (m : msgbox) :
  items (m_history m) <> [] ->
  exists m1, push_chunk c m = (Ret tt, m1) /\ items (m_history m1) <> [] /\
             m_w m1 = m_w m /\ maxlen (m_history m1) = maxlen (m_history m).
Proof.
  intros H. unfold push_chunk. destruct (items (m_history m)) as [|l rest]; [easy|].
  eexists. split; [reflexivity|]. cbn. split; [discriminate|]. auto.
Qed.

(** At width [w <= 2] the loop at position 2 never leaves, unless [w = 2]
    and the phrase is blank: [len(phrase) <= w - 2] fails, and every split
    keeps a phrase that fails it again. *)
Lemma wrap_loop_narrow_hangs (w : Z) (st : atom) :
  w <= 2 ->
  forall fuel p m r m',
  items (m_history m) <> [] -> (1 <= maxlen (m_history m))%nat ->
  (w < 2 \/ lstrip p <> []) ->
  wrap_loop fuel w p st 2 m = (r, m') -> r = Hang.
Proof.
  intros Hw fuel. induction fuel as [|fuel IH]; intros p m r m' Hne HM Hc H.
  - cbn in H. injection H as <- _. reflexivity.
  - cbn [wrap_loop] in H. rewrite Z.eqb_refl in H.
    assert (Hfit : (py_len (lstrip p) <=? w - 2) = false).
    { apply Z.leb_gt. destruct Hc as [Hc|Hc].
      - pose proof (py_len_nonneg (lstrip p)). lia.
      - destruct (lstrip p) as [|x t]; [easy|]. rewrite py_len_cons.
        pose proof (py_len_nonneg t). lia. }
    rewrite Hfit in H.
    set (step := if 0 <? rfind space (py_take (w - 2) (lstrip p)) then _ else _) in H.
    assert (Hstep : exists q m1, step m = (Ret q, m1) /\
      items (m_history m1) <> [] /\ maxlen (m_history m1) = maxlen (m_history m) /\
      (w = 2 -> q = lstrip p)).
    { unfold step. destruct (0 <? rfind space (py_take (w - 2) (lstrip p))) eqn:El.
      - destruct (push_chunk_nonempty
                    (py_take (rfind space (py_take (w - 2) (lstrip p))) (lstrip p), st) m Hne)
          as (m1 & Hp & Hne1 & _ & HM1).
        eexists _, m1. unfold bind. rewrite Hp. split; [reflexivity|]. split; [exact Hne1|].
        split; [exact HM1|]. intros ->. unfold py_take in El. cbn in El. discriminate.
      - destruct (push_chunk_nonempty (py_take (w - 2) (lstrip p), st) m Hne)
          as (m1 & Hp & Hne1 & _ & HM1).
        eexists _, m1. unfold bind. rewrite Hp.
        split; [reflexivity|]. split; [exact Hne1|]. split; [exact HM1|].
        intros ->. reflexivity. }
    destruct Hstep as (q & m1 & Hs & Hne1 & HM1 & Hq).
    unfold bind at 1 in H. rewrite Hs in H.
    unfold bind, new_line in H.
    eapply IH; [| | |exact H].
    + cbn. destruct (maxlen (m_history m1)) as [|k]; [lia|]. cbn. discriminate.
    + cbn. lia.
    + destruct Hc as [Hc|Hc]; [left; exact Hc|].
      destruct (Z.eq_dec w 2) as [->|Hw2]; [|left; lia].
      right. rewrite (Hq eq_refl), lstrip_idem. exact Hc.
Qed.

Lemma append_one_str (fuel : nat) (s sigil : pystr) (m : msgbox) :
  append fuel [CStr s] sigil m =
  let m0 := set_history m (appendleft [(sigil ++ [space], AInt A_NORMAL)] (m_history m)) in
  match wrap_loop fuel (m_w m) s (AInt A_NORMAL) 2 m0 with
  | (Ret _, m') => (Ret tt, m')
  | (Exc e, m') => (Exc e, m')
  | (Hang, m') => (Hang, m')
  end.
Proof.
  unfold append, get_st, bind, new_line. cbn [append_chunks append_chunk wrap_phrase].
  unfold bind, ret.
  destruct (wrap_loop _ _ _ _ _ _) as [[|e|] m']; reflexivity.
Qed.

Lemma appendleft_nonempty {A} (x : A) (d : deque A) :
  (1 <= maxlen d)%nat -> items (appendleft x d) <> [] /\ maxlen (appendleft x d) = maxlen d.
Proof.
  intros H. unfold appendleft. cbn. destruct (maxlen d); [lia|]. split; [discriminate|reflexivity].
Qed.

(** C2 (the divergence).  [append] has no width check: at a width [w <= 2] a call
    with one string chunk never raises.  It returns normally when [w = 2] and
    the phrase is blank, and otherwise its [while True] loop never ends. *)
Theorem append_narrow_never_raises (fuel : nat) (s sigil : pystr) (m : msgbox) :
  (1 <= fuel)%nat -> m_w m <= 2 -> (1 <= maxlen (m_history m))%nat ->
  fst (append fuel [CStr s] sigil m) =
  if (m_w m =? 2) && is_empty (lstrip s) then Ret tt else Hang.
Proof.
  intros Hf Hw HM. rewrite append_one_str. cbv zeta.
  set (m0 := set_history m _).
  assert (Hne : items (m_history m0) <> [] /\ maxlen (m_history m0) = maxlen (m_history m))
    by (apply appendleft_nonempty; exact HM).
  destruct Hne as [Hne HM0].
  destruct ((m_w m =? 2) && is_empty (lstrip s)) eqn:C.
  - apply andb_true_iff in C as [C1 C2]. apply Z.eqb_eq in C1.
    destruct fuel as [|f]; [lia|]. cbn [wrap_loop]. rewrite Z.eqb_refl, C1.
    destruct (lstrip s) as [|x t]; [|discriminate].
    cbn [py_len List.length Z.of_nat Z.sub Z.leb]. cbv [bind].
    change (0 <=? 2 - 2) with true. cbv beta iota.
    unfold push_chunk. destruct (items (m_history m0)); [contradiction|reflexivity].
  - destruct (wrap_loop fuel (m_w m) s (AInt A_NORMAL) 2 m0) as [r m'] eqn:E.
    assert (r = Hang).
    { eapply (wrap_loop_narrow_hangs (m_w m) (AInt A_NORMAL) Hw fuel s m0 r m');
        [exact Hne | lia | | exact E].
      destruct (Z.eq_dec (m_w m) 2) as [Hw2|Hw2]; [|left; lia].
      right. rewrite Hw2, Z.eqb_refl in C. cbn in C.
      destruct (lstrip s); [discriminate|]. discriminate. }
    subst r. reflexivity.
Qed.

(** C2 (counterexample).  On a message box of width 2, appending ["a"] runs
    forever, and appending [""] returns normally: no error is signalled. *)
Lemma append_narrow_no_error :
  append_runs_forever [CStr (of_ascii "a")] [glyph_dot] box_w2 /\
  fst (append 1 [CStr []] [glyph_dot] box_w2) = Ret tt.
Proof.
  split.
  - intros fuel. destruct fuel as [|f].
    + reflexivity.
    + rewrite append_one_str. cbv zeta.
      destruct (wrap_loop _ _ _ _ _ _) as [r m'] eqn:E.
      assert (r = Hang).
      { eapply (wrap_loop_narrow_hangs 2 (AInt A_NORMAL) ltac:(lia) (S f)); [| | | exact E].
        - cbn. discriminate.
        - cbn. lia.
        - right. cbn. discriminate. }
      subst r. reflexivity.
  - vm_compute. reflexivity.
Qed.

(** A call of [append_narrow_never_raises] on a concrete box. *)
Lemma append_narrow_never_raises_witness :
  fst (append 3 [CStr (of_ascii "  ")] [glyph_dot] box_w2) = Ret tt.
Proof.
  exact (append_narrow_never_raises 3 (of_ascii "  ") [glyph_dot] box_w2
           ltac:(lia) ltac:(vm_compute; discriminate) ltac:(vm_compute; lia)).
Defined.

(** ** Chunks of an unsupported type *)

Lemma append_chunks_app (fuel : nat) (w : Z) (cs1 cs2 : list chunk) (pos : Z) (s : msgbox) :
  append_chunks fuel w (cs1 ++ cs2) pos s =
  (p <- append_chunks fuel w cs1 pos;; append_chunks fuel w cs2 p) s.
Proof.
  revert pos s. induction cs1 as [|c cs1 IH]; intros pos s; cbn [app append_chunks].
  - reflexivity.
  - unfold bind in IH |- *.
    destruct (append_chunk fuel w c pos s) as [[p|e|] s1]; try reflexivity.
    apply IH.
Qed.

(** C3 (amended).  A chunk that is neither a [str] nor a [tuple] makes
    [append] raise, after the chunks before it have been laid out: the state
    left is the one a call with only the earlier chunks leaves, sigil line
    included. *)
Theorem append_bad_chunk_not_atomic (fuel : nat) (cs rest : list chunk) (sigil : pystr)
    (m : msgbox) :
  fst (append fuel cs sigil m) = Ret tt ->
  append fuel (cs ++ COther :: rest) sigil m = (Exc Exception, snd (append fuel cs sigil m)).
Proof.
  intros H. unfold append, get_st, new_line, bind in *. cbv beta iota in *.
  rewrite append_chunks_app. unfold bind.
  destruct (append_chunks fuel (m_w m) cs 2 _) as [[p|e|] m1]; cbn in H |- *;
    try discriminate.
  reflexivity.
Qed.

(** C3 (counterexample).  On an empty box, [append("hi", obj)] with an [obj]
    of another type raises and leaves the sigil line with ["hi"] on it. *)
Lemma append_bad_chunk_leaves_line :
  let m0 := new_msgbox 24 10 in
  items (m_history m0) = [] /\
  fst (append 10 [CStr (of_ascii "hi"); COther] [glyph_dot] m0) = Exc Exception /\
  items (m_history (snd (append 10 [CStr (of_ascii "hi"); COther] [glyph_dot] m0))) =
    [first_line [glyph_dot] (of_ascii "hi")].
Proof. vm_compute. repeat split. Qed.

(** [append_bad_chunk_not_atomic] on a concrete call. *)
Lemma append_bad_chunk_not_atomic_witness :
  append 10 ([CStr (of_ascii "hi")] ++ [COther]) [glyph_dot] (new_msgbox 24 10) =
  (Exc Exception, snd (append 10 [CStr (of_ascii "hi")] [glyph_dot] (new_msgbox 24 10))).
Proof.
  apply (append_bad_chunk_not_atomic 10 [CStr (of_ascii "hi")] [] [glyph_dot]
           (new_msgbox 24 10)).
  vm_compute. reflexivity.
Defined.

(** ** Staleness in [draw] *)

(** C4 (the divergence).  Two ordinary messages, ["y"] and then ["❱ x"]: no
    line carries the command sigil, yet [draw] dims the older line, because
    the test [phrase[0] == "❱"] looks at every chunk of a line, the message
    text included, and not only at the sigil chunk. *)
Theorem draw_dims_after_command_glyph_in_text :
  let m := snd (run_ops 10 [OpAppend [CStr (of_ascii "y")] [glyph_dot];
                            OpAppend [CStr (glyph_command :: of_ascii " x")] [glyph_dot]]
                  (new_msgbox 24 20)) in
  items (m_history m) =
    [first_line [glyph_dot] (glyph_command :: of_ascii " x");
     first_line [glyph_dot] (of_ascii "y")] /\
  m_history_index m = 0 /\
  draw_events m =
    Ret [MoveTo 23; AddStr [glyph_dot; space] A_NORMAL;
         AddStr (glyph_command :: of_ascii " x") A_NORMAL;
         MoveTo 22; AddStr [glyph_dot; space] A_DIM; AddStr (of_ascii "y") A_DIM].
Proof. vm_compute. repeat split. Qed.

(** ** The paging offset *)

Lemma keeps_refl (m : msgbox) : keeps_paging m m.
Proof. unfold keeps_paging. repeat split; lia. Qed.

Lemma keeps_trans (m1 m2 m3 : msgbox) :
  keeps_paging m1 m2 -> keeps_paging m2 m3 -> keeps_paging m1 m3.
Proof.
  unfold keeps_paging. intros (H1 & W1 & I1 & M1 & L1) (H2 & W2 & I2 & M2 & L2).
  refine (conj _ (conj _ (conj _ (conj _ _)))); try congruence.
  intros HL. specialize (L1 HL). rewrite M1 in L2. specialize (L2 ltac:(lia)). lia.
Qed.

Lemma grows_ret {A} (a : A) : grows (ret a).
Proof. intros m r m' H. injection H as _ <-. apply keeps_refl. Qed.

Lemma grows_raise {A} (e : exn) : grows (A := A) (raise e).
Proof. intros m r m' H. injection H as _ <-. apply keeps_refl. Qed.

Lemma grows_hang {A} : grows (A := A) hang.
Proof. intros m r m' H. injection H as _ <-. apply keeps_refl. Qed.

Lemma grows_get : grows get_st.
Proof. intros m r m' H. injection H as _ <-. apply keeps_refl. Qed.

Lemma grows_bind {A B} (a : St msgbox A) (k : A -> St msgbox B) :
  grows a -> (forall x, grows (k x)) -> grows (bind a k).
Proof.
  intros Ha Hk m r m' H. split_bind H as x Ha1 Hk1.
  - exact (keeps_trans _ _ _ (Ha _ _ _ Ha1) (Hk x _ _ _ Hk1)).
  - exact (Ha _ _ _ Ha1).
  - exact (Ha _ _ _ Ha1).
Qed.

Lemma grows_push_chunk (c : pystr * atom) : grows (push_chunk c).
Proof.
  intros m r m' H. unfold push_chunk in H.
  destruct (items (m_history m)) as [|l rest] eqn:E.
  - injection H as _ <-. apply keeps_refl.
  - injection H as _ <-. unfold keeps_paging. cbn. rewrite E. cbn.
    refine (conj eq_refl (conj eq_refl (conj eq_refl (conj eq_refl _)))). lia.
Qed.

Lemma grows_new_line (l : line) : grows (new_line l).
Proof.
  intros m r m' H. unfold new_line in H. injection H as _ <-.
  unfold keeps_paging, appendleft. cbn.
  refine (conj eq_refl (conj eq_refl (conj eq_refl (conj eq_refl _)))).
  intros HL. rewrite length_firstn. cbn. lia.
Qed.

Ltac grows_auto :=
  repeat first
    [ apply grows_bind; [|intros ?]
    | apply grows_ret | apply grows_raise | apply grows_hang | apply grows_get
    | apply grows_push_chunk | apply grows_new_line
    | match goal with |- grows (if ?b then _ else _) => destruct b end ].

Lemma grows_wrap_loop (fuel : nat) (w : Z) (p : pystr) (st : atom) (pos : Z) :
  grows (wrap_loop fuel w p st pos).
Proof.
  revert p pos. induction fuel as [|fuel IH]; intros p pos; cbn [wrap_loop].
  - apply grows_hang.
  - cbv zeta. grows_auto. apply IH.
Qed.

Lemma grows_append (fuel : nat) (cs : list chunk) (sigil : pystr) : grows (append fuel cs sigil).
Proof.
  unfold append. grows_auto.
  generalize 2. induction cs as [|c cs IH]; intros pos; cbn [append_chunks]; grows_auto.
  - destruct c as [s|its|]; cbn [append_chunk wrap_phrase].
    + apply grows_wrap_loop.
    + destruct (nth_error its 0) as [[s|z]|]; [destruct (nth_error its 1)|destruct (nth_error its 1)|];
        cbn [wrap_phrase]; grows_auto; apply grows_wrap_loop.
    + apply grows_raise.
  - apply IH.
Qed.

Lemma draw_state (m m' : msgbox) (r : res unit) : draw m = (r, m') -> m' = m.
Proof. unfold draw. destruct (draw_events m); intros H; injection H as _ <-; reflexivity. Qed.

Lemma run_op_paging (fuel : nat) (o : msg_op) (m m' : msgbox) (r : res unit) :
  paging_inv m -> run_op fuel o m = (r, m') -> paging_inv m'.
Proof.
  unfold paging_inv, hist_len. intros (Hh & Hi & HL) H. destruct o as [cs sg| |]; cbn [run_op] in H.
  - destruct (grows_append fuel cs sg m r m' H) as (Eh & _ & Ei & EM & Hlen).
    specialize (Hlen HL). rewrite Eh, Ei. lia.
  - unfold page_up in H. unfold page_size, hist_len in H.
    destruct (m_h m / 3 <? _) eqn:C.
    + apply draw_state in H. subst m'. cbn. apply Z.ltb_lt in C.
      pose proof (Z.div_pos (m_h m) 3 Hh ltac:(lia)). lia.
    + injection H as _ <-. lia.
  - unfold page_down in H. unfold page_size in H.
    destruct (m_h m / 3 <=? _) eqn:C.
    + apply draw_state in H. subst m'. cbn. apply Z.leb_le in C.
      pose proof (Z.div_pos (m_h m) 3 Hh ltac:(lia)). lia.
    + injection H as _ <-. lia.
Qed.

Lemma run_ops_paging (fuel : nat) (os : list msg_op) :
  forall m r m', paging_inv m -> run_ops fuel os m = (r, m') -> paging_inv m'.
Proof.
  induction os as [|o os IH]; intros m r m' Hm H; cbn [run_ops] in H.
  - injection H as _ <-. exact Hm.
  - split_bind H as x Ha Hk.
    + exact (IH _ _ _ (run_op_paging fuel o m _ _ Hm Ha) Hk).
    + exact (run_op_paging fuel o m _ _ Hm Ha).
    + exact (run_op_paging fuel o m _ _ Hm Ha).
Qed.

Lemma new_msgbox_paging (h w : Z) : 0 <= h -> paging_inv (new_msgbox h w).
Proof. intros Hh. unfold paging_inv, hist_len. cbn. lia. Qed.

(** C5 (the divergence).  From a fresh box of height [h >= 0], every sequence
    of [append], [page_up] and [page_down] calls keeps the offset in
    [0, len(history)]; but the calls do not all return: after [append("")]
    and [append("x")] on a box of height 3, [page_up] then [page_down] raises
    [IndexError] in the redraw [page_down] makes. *)
Theorem paging_offset_in_range_redraw_raises :
  (forall fuel os h w r m', 0 <= h ->
     run_ops fuel os (new_msgbox h w) = (r, m') ->
     0 <= m_history_index m' <= hist_len m') /\
  fst (run_ops 10 [OpAppend [CStr []] [glyph_dot]; OpAppend [CStr (of_ascii "x")] [glyph_dot];
                   OpPageUp] (new_msgbox 3 10)) = Ret tt /\
  fst (run_ops 10 [OpAppend [CStr []] [glyph_dot]; OpAppend [CStr (of_ascii "x")] [glyph_dot];
                   OpPageUp; OpPageDown] (new_msgbox 3 10)) = Exc IndexError.
Proof.
  split; [|vm_compute; split; reflexivity].
  intros fuel os h w r m' Hh H.
  exact (proj1 (proj2 (run_ops_paging fuel os _ _ _ (new_msgbox_paging h w Hh) H))).
Qed.

(** ** An empty chunk *)

(** C10: appending the empty string returns normally, and the [draw] that
    follows raises [IndexError] at [phrase[0]] of the empty chunk (any sigil;
    not paging; a box at least one line high and two columns wide). *)
Theorem append_empty_then_draw_fails (fuel : nat) (sigil : pystr) (m : msgbox) :
  (1 <= fuel)%nat -> m_history_index m = 0 -> 1 <= m_h m -> 2 <= m_w m ->
  (1 <= maxlen (m_history m))%nat ->
  exists m', append fuel [CStr []] sigil m = (Ret tt, m') /\
             draw_events m' = Exc IndexError.
Proof.
  intros Hf Hi Hh Hw HM. rewrite append_one_str. cbv zeta.
  destruct fuel as [|f]; [lia|]. cbn [wrap_loop]. rewrite Z.eqb_refl.
  cbn [lstrip py_len List.length Z.of_nat].
  destruct (0 <=? m_w m - 2) eqn:E; [|apply Z.leb_gt in E; lia].
  destruct m as [h w [its M] idx]; cbn in *. subst idx. destruct M as [|M]; [lia|].
  cbn. eexists. split; [reflexivity|].
  unfold draw_events, hist_len. cbn -[Z.min].
  match goal with |- context [firstn (Z.to_nat ?x) _] => destruct (Z.to_nat x) as [|k] eqn:Ek end.
  { exfalso. rewrite Zpos_P_of_succ_nat in Ek.
    pose proof (Nat2Z.is_nonneg (List.length (firstn M its))). lia. }
  cbn. destruct (sigil ++ [space]) as [|c t] eqn:Es.
  - destruct sigil; discriminate.
  - reflexivity.
Qed.

(** ** Command history *)

Lemma set_chars_same (w : window) : set_chars w (c_chars (cmdbox_of w)) = w.
Proof. destruct w as [d m [cw cs ch]]. reflexivity. Qed.

Lemma key_loop_printable cc di kn (fuel : nat) (ks rest : list Z) :
  Forall (fun k => printable k = true) ks ->
  forall hi w,
  key_loop cc di kn fuel (ks ++ 13 :: rest) hi w =
  (Ret rest, set_chars w (c_chars (cmdbox_of w) ++ ks)).
Proof.
  induction 1 as [|k ks Hk Hks IH]; intros hi w.
  - cbn. rewrite app_nil_r, set_chars_same. reflexivity.
  - cbn [app key_loop]. unfold bind at 1, get_st. cbv beta iota.
    unfold printable in Hk. rewrite Hk.
    unfold bind, put_st, cmd_draw, ret. rewrite IH.
    destruct w as [d m [cw cs ch]]. cbn. rewrite <- app_assoc. reflexivity.
Qed.

Lemma submit_spec (fuel : nat) (w0 w1 : window) (c : pystr) :
  submit fuel w0 = (Ret c, w1) ->
  c = lstrip (c_chars (cmdbox_of w0)) /\ c_chars (cmdbox_of w1) = [] /\
  c_history (cmdbox_of w1) =
    (if is_empty c then c_history (cmdbox_of w0)
     else push_history (c_chars (cmdbox_of w0)) (c_history (cmdbox_of w0))).
Proof.
  destruct w0 as [d m [cw cs ch]]. unfold submit, bind, get_st, put_st, cmd_draw, ret.
  cbn [cmdbox_of c_chars c_history].
  destruct (lstrip cs) as [|x t] eqn:E.
  - intros H. injection H as <- <-. cbn. auto.
  - unfold on_msgbox. cbn [msgbox_of].
    destruct (append fuel _ _ m) as [[u|e|] m']; intros H; try discriminate.
    injection H as <- <-. cbn. auto.
Qed.

Lemma prompt_phase_cmdbox (fuel : nat) (p : option chunk) (w w' : window) (r : res unit) :
  prompt_phase fuel p w = (r, w') -> cmdbox_of w' = cmdbox_of w.
Proof.
  destruct p as [c|]; cbn.
  - unfold on_msgbox. destruct ((append fuel [c] [glyph_prompt];; draw) (msgbox_of w)).
    intros H. injection H as _ <-. reflexivity.
  - unfold ret. intros H. injection H as _ <-. reflexivity.
Qed.

(** [get] on printable keys then enter: the command and the history it leaves. *)
Lemma get_printable cc di kn (fuel : nat) (p : option chunk) (ks rest : list Z)
    (w0 w1 : window) (r : pystr * list Z) :
  Forall (fun k => printable k = true) ks ->
  get cc di kn fuel p (ks ++ 13 :: rest) w0 = (Ret r, w1) ->
  r = (lstrip ks, rest) /\ c_chars (cmdbox_of w1) = [] /\
  c_history (cmdbox_of w1) =
    (if is_empty (lstrip ks) then c_history (cmdbox_of w0)
     else push_history ks (c_history (cmdbox_of w0))).
Proof.
  intros Hks H. unfold get in H.
  split_bind H as u Hp H1; [|discriminate..].
  apply prompt_phase_cmdbox in Hp.
  unfold bind at 1, get_st in H1. unfold bind at 1, put_st in H1.
  unfold bind at 1 in H1. rewrite key_loop_printable in H1 by exact Hks.
  split_bind H1 as c Hs H2; [|discriminate..].
  unfold ret in H2. injection H2 as <- <-.
  apply submit_spec in Hs as (-> & Hc & Hh).
  cbn [set_chars cmdbox_of c_chars c_history app] in Hh |- *.
  rewrite Hp in Hh. auto.
Qed.

Lemma push_history_dup (x : pystr) (d : deque pystr) :
  hd_error (items d) = Some x -> push_history x d = d.
Proof.
  unfold push_history. destruct (items d) as [|y t]; [discriminate|].
  intros H. injection H as ->. destruct (list_eq_dec Z.eq_dec x x); [reflexivity|contradiction].
Qed.

Lemma push_history_new (x : pystr) (d : deque pystr) :
  hd_error (items d) <> Some x -> push_history x d = appendleft x d.
Proof.
  unfold push_history. destruct (items d) as [|y t]; [reflexivity|].
  intros H. destruct (list_eq_dec Z.eq_dec x y) as [->|]; [contradiction|reflexivity].
Qed.

(** C6: a non-empty command pushes the raw buffer [self.chars] (before
    [lstrip]) onto the front of the command history, unless it equals the
    front entry, in which case the history is left as it is.  So the same
    printable keys entered twice in a row leave one front entry for them,
    the history after the second call being the one after the first. *)
Theorem submit_pushes_unless_duplicate :
  (forall fuel w0 c w1, submit fuel w0 = (Ret c, w1) -> c <> [] ->
     let chars := c_chars (cmdbox_of w0) in
     let h0 := c_history (cmdbox_of w0) in
     let h1 := c_history (cmdbox_of w1) in
     c = lstrip chars /\
     (hd_error (items h0) = Some chars -> h1 = h0) /\
     (hd_error (items h0) <> Some chars ->
        h1 = mkDeque (firstn (maxlen h0) (chars :: items h0)) (maxlen h0))) /\
  (forall cc di kn fuel p1 p2 ks rest1 rest2 w0 r1 w1 r2 w2,
     Forall (fun k => printable k = true) ks -> lstrip ks <> [] ->
     (1 <= maxlen (c_history (cmdbox_of w0)))%nat ->
     get cc di kn fuel p1 (ks ++ 13 :: rest1) w0 = (Ret r1, w1) ->
     get cc di kn fuel p2 (ks ++ 13 :: rest2) w1 = (Ret r2, w2) ->
     hd_error (items (c_history (cmdbox_of w1))) = Some ks /\
     c_history (cmdbox_of w2) = c_history (cmdbox_of w1)).
Proof.
  split.
  - intros fuel w0 c w1 H Hc. cbv zeta. apply submit_spec in H as (Hc' & _ & Hh).
    split; [exact Hc'|]. rewrite Hh. destruct c as [|x t]; [contradiction|]. cbn.
    split; [apply push_history_dup | apply push_history_new].
  - intros cc di kn fuel p1 p2 ks rest1 rest2 w0 r1 w1 r2 w2 Hks Hne HM H1 H2.
    apply get_printable in H1 as (_ & _ & Hh1); [|exact Hks].
    apply get_printable in H2 as (_ & _ & Hh2); [|exact Hks].
    destruct (lstrip ks) as [|x t]; [contradiction|]. cbn in Hh1, Hh2.
    assert (Hhd : hd_error (items (c_history (cmdbox_of w1))) = Some ks).
    { rewrite Hh1. set (h0 := c_history (cmdbox_of w0)) in *.
      unfold push_history, appendleft.
      destruct (items h0) as [|y l] eqn:E.
      - cbn. destruct (maxlen h0); [lia|reflexivity].
      - destruct (list_eq_dec Z.eq_dec ks y) as [->|]; [rewrite E; reflexivity|].
        cbn. destruct (maxlen h0); [lia|reflexivity]. }
    split; [exact Hhd|]. rewrite Hh2. apply push_history_dup. exact Hhd.
Qed.

(** [submit_pushes_unless_duplicate] on ["go"] typed twice. *)
Lemma submit_pushes_unless_duplicate_witness :
  hd_error (items (c_history (cmdbox_of
    (snd (plain_get 10%nat None (go_keys ++ [13]) go_window))))) = Some go_keys /\
  c_history (cmdbox_of (snd (plain_get 10%nat None (go_keys ++ [13])
                               (snd (plain_get 10%nat None (go_keys ++ [13]) go_window))))) =
  c_history (cmdbox_of (snd (plain_get 10%nat None (go_keys ++ [13]) go_window))).
Proof.
  exact (proj2 submit_pushes_unless_duplicate (fun _ => None) (ret tt) (fun _ => None) 10%nat
           None None go_keys [] [] go_window (go_keys, [])
           (snd (plain_get 10%nat None (go_keys ++ [13]) go_window)) (go_keys, [])
           (snd (plain_get 10%nat None (go_keys ++ [13])
                   (snd (plain_get 10%nat None (go_keys ++ [13]) go_window))))
           ltac:(repeat constructor) ltac:(discriminate) ltac:(vm_compute; lia)
           ltac:(vm_compute; reflexivity) ltac:(vm_compute; reflexivity)).
Defined.

(** ** Echo of a command *)

Lemma prompt_phase_msgbox (fuel : nat) (p : option chunk) (w w' : window) (r : res unit) :
  prompt_phase fuel p w = (r, w') -> keeps_paging (msgbox_of w) (msgbox_of w').
Proof.
  destruct p as [c|]; cbn.
  - unfold on_msgbox.
    destruct ((append fuel [c] [glyph_prompt];; draw) (msgbox_of w)) as [r1 m1] eqn:E.
    intros H. injection H as _ <-. cbn.
    refine (grows_bind _ _ (grows_append fuel [c] [glyph_prompt]) _ _ _ _ E).
    intros u m r' m' Hd. apply draw_state in Hd. subst. apply keeps_refl.
  - unfold ret. intros H. injection H as _ <-. apply keeps_refl.
Qed.

(** C7 (amended).  On a message box at least 4 columns wide that keeps at
    least one line, [get] fed ['g'], ['o'], enter returns ["go"] and leaves
    at the front of the scrollback the line ["❱ "] then ["go"] in bold,
    whatever the prompt, provided echoing the prompt returns normally. *)
Theorem get_go_echoes_bold cc di kn (fuel : nat) (p : option chunk) (w0 : window) :
  (1 <= fuel)%nat -> 4 <= m_w (msgbox_of w0) ->
  (1 <= maxlen (m_history (msgbox_of w0)))%nat ->
  fst (prompt_phase fuel p w0) = Ret tt ->
  exists w1,
    get cc di kn fuel p [103; 111; 13] w0 = (Ret (of_ascii "go", []), w1) /\
    hd_error (items (m_history (msgbox_of w1))) =
      Some [([glyph_command; space], AInt A_NORMAL); (of_ascii "go", AInt A_BOLD)].
Proof.
  intros Hf Hw HM Hp. unfold get.
  destruct (prompt_phase fuel p w0) as [r s] eqn:Ep. cbn in Hp. subst r.
  pose proof (prompt_phase_msgbox fuel p w0 s _ Ep) as (_ & Ew & _ & EM & _).
  unfold bind at 1. rewrite Ep.
  unfold bind at 1, get_st. unfold bind at 1, put_st. unfold bind at 1.
  change [103; 111; 13] with ([103; 111] ++ 13 :: []).
  rewrite key_loop_printable by (repeat constructor).
  destruct s as [d [h w [its M] idx] [cw cs ch]]. cbn in Ew, EM. subst w M.
  destruct (m_history (msgbox_of w0)) as [its0 M0] eqn:Eh. cbn in HM.
  destruct M0 as [|M]; [lia|].
  destruct fuel as [|f]; [lia|].
  unfold submit, bind, get_st, put_st, cmd_draw, ret, on_msgbox. cbn.
  destruct (2 <=? m_w (msgbox_of w0) - 2) eqn:E; [|apply Z.leb_gt in E; lia].
  cbn. eexists. split; reflexivity.
Qed.

(** C7 (counterexample).  With a message box 3 columns wide, ["go"] is
    split: the front line of the scrollback is the continuation line
    ["  "] then ["o"], not the command line. *)
Lemma get_go_narrow_box :
  plain_get 10%nat None [103; 111; 13] (mkWindow false (new_msgbox 20 3) (new_cmdbox 10)) =
  (Ret (of_ascii "go", []),
   snd (plain_get 10%nat None [103; 111; 13] (mkWindow false (new_msgbox 20 3) (new_cmdbox 10)))) /\
  hd_error (items (m_history (msgbox_of
    (snd (plain_get 10%nat None [103; 111; 13] (mkWindow false (new_msgbox 20 3) (new_cmdbox 10))))))) =
  Some [([space; space], AInt A_NORMAL); (of_ascii "o", AInt A_BOLD)].
Proof. vm_compute. split; reflexivity. Qed.

(** ** The theorems on concrete calls *)

(** [append_lines_fit_width] on [sample_chunks] in a box 10 columns wide. *)
Lemma append_lines_fit_width_witness :
  exists new,
    items (m_history (snd (append 100 sample_chunks [glyph_dot] (new_msgbox 24 10)))) =
      firstn (maxlen (m_history (new_msgbox 24 10))) (new ++ items (m_history (new_msgbox 24 10))) /\
    Forall (fun l => line_len l <= m_w (new_msgbox 24 10)) new.
Proof.
  exact (append_lines_fit_width 100 sample_chunks [glyph_dot] (new_msgbox 24 10)
           (fst (append 100 sample_chunks [glyph_dot] (new_msgbox 24 10)))
           (snd (append 100 sample_chunks [glyph_dot] (new_msgbox 24 10)))
           ltac:(vm_compute; reflexivity) ltac:(cbn; lia) (surjective_pairing _)).
Defined.

(** [long_word_hard_split] in a fresh box 10 columns wide. *)
Lemma long_word_hard_split_witness :
  exists f1 fs,
    (1 <= List.length fs)%nat /\
    Forall (fun f => List.length f = 8%nat) (removelast (f1 :: fs)) /\
    List.concat (f1 :: fs) = long_word /\
    append 5 [CStr long_word] [glyph_dot] (new_msgbox 24 10) =
      (Ret tt, set_history (new_msgbox 24 10)
        (mkDeque (firstn 240 (rev (first_line [glyph_dot] f1 :: map cont_line fs) ++ []))
                 240)).
Proof.
  exact (long_word_hard_split 5 (new_msgbox 24 10) [glyph_dot]
           ltac:(reflexivity) ltac:(vm_compute; lia) ltac:(lia)).
Defined.

(** [append_terminates] on [sample_chunks], which it also returns from. *)
Lemma append_terminates_witness :
  fst (append 100 sample_chunks [glyph_dot] (new_msgbox 24 10)) = Ret tt /\
  fst (append 100 sample_chunks [glyph_dot] (new_msgbox 24 10)) <> Hang.
Proof.
  split; [vm_compute; reflexivity|].
  exact (append_terminates 100 sample_chunks [glyph_dot] (new_msgbox 24 10)
           ltac:(vm_compute; discriminate)
           ltac:(intros c Hc; cbn in Hc;
                 repeat (destruct Hc as [<-|Hc]; [cbn; lia|]); destruct Hc)).
Defined.

(** [append_empty_then_draw_fails] in a fresh box. *)
Lemma append_empty_then_draw_fails_witness :
  exists m', append 10 [CStr []] [glyph_dot] (new_msgbox 24 10) = (Ret tt, m') /\
             draw_events m' = Exc IndexError.
Proof.
  exact (append_empty_then_draw_fails 10 [glyph_dot] (new_msgbox 24 10)
           ltac:(lia) eq_refl ltac:(vm_compute; discriminate)
           ltac:(vm_compute; discriminate) ltac:(vm_compute; lia)).
Defined.

(** [get_go_echoes_bold] on [go_window], with no prompt. *)
Lemma get_go_echoes_bold_witness :
  exists w1,
    plain_get 10%nat None [103; 111; 13] go_window = (Ret (of_ascii "go", []), w1) /\
    hd_error (items (m_history (msgbox_of w1))) =
      Some [([glyph_command; space], AInt A_NORMAL); (of_ascii "go", AInt A_BOLD)].
Proof.
  exact (get_go_echoes_bold (fun _ => None) (ret tt) (fun _ => None) 10 None go_window
           ltac:(lia) ltac:(vm_compute; discriminate) ltac:(vm_compute; lia) eq_refl).
Defined.

(** [paging_offset_in_range_redraw_raises] on the run that raises. *)
Lemma paging_offset_in_range_redraw_raises_witness :
  let m' := snd (run_ops 10 [OpAppend [CStr []] [glyph_dot];
                             OpAppend [CStr (of_ascii "x")] [glyph_dot];
                             OpPageUp; OpPageDown] (new_msgbox 3 10)) in
  0 <= m_history_index m' <= hist_len m'.
Proof.
  exact (proj1 paging_offset_in_range_redraw_raises 10%nat
           [OpAppend [CStr []] [glyph_dot]; OpAppend [CStr (of_ascii "x")] [glyph_dot];
            OpPageUp; OpPageDown] 3 10 (Exc IndexError) _ ltac:(lia)
           ltac:(vm_compute; reflexivity)).
Defined.

(** ** Further properties of the code *)

Lemma draw_snd (m : msgbox) : snd (draw m) = m.
Proof. destruct (draw m) as [r m'] eqn:E. apply draw_state in E. exact E. Qed.

Lemma page_size_nonneg (m : msgbox) : 0 <= m_h m -> 0 <= page_size m.
Proof. intros H. unfold page_size. apply Z.div_pos; lia. Qed.

(** From a non-negative offset, [page_down] undoes a [page_up] that moved, and [page_up] undoes a
    [page_down] that moved while the offset is below [len(history)]; the
    redraw in between changes nothing. *)
Theorem paging_round_trip (m : msgbox) :
  0 <= m_h m -> 0 <= m_history_index m ->
  (page_size m < hist_len m - m_history_index m ->
     snd (page_down (snd (page_up m))) = m) /\
  (page_size m <= m_history_index m -> m_history_index m < hist_len m ->
     snd (page_up (snd (page_down m))) = m).
Proof.
  intros Hh Hi. pose proof (page_size_nonneg m Hh) as Hp.
  destruct m as [h w d idx]. unfold page_size, hist_len in *. cbn -[draw] in *.
  split; intros H; [|intros H'];
    unfold page_up, page_down, page_size, hist_len, set_index; cbn -[draw];
    repeat (match goal with |- context [if ?b then _ else _] =>
              let E := fresh "E" in destruct b eqn:E;
              [apply Z.ltb_lt in E || apply Z.leb_le in E
              |apply Z.ltb_ge in E || apply Z.leb_gt in E; lia] end;
            rewrite ?draw_snd; cbn -[draw]);
    f_equal; lia.
Qed.

(** [cmd_display] when the box is at least 3 columns wide: a buffer shorter
    than the box is shown as it is; a longer one as ["…"] and its last
    [w - 2] characters, so the text never takes more than [w - 1] columns. *)
Theorem cmd_display_fits (c : cmdbox) :
  3 <= c_w c ->
  (py_len (c_chars c) < c_w c /\ cmd_display c = c_chars c) \/
  (c_w c <= py_len (c_chars c) /\
   exists pre suf, c_chars c = pre ++ suf /\ py_len suf = c_w c - 2 /\
                   cmd_display c = glyph_ellipsis :: suf).
Proof.
  intros Hw. unfold cmd_display.
  destruct (py_len (c_chars c) <? c_w c) eqn:E.
  - left. apply Z.ltb_lt in E. auto.
  - right. apply Z.ltb_ge in E. split; [exact E|].
    unfold py_drop. destruct (0 <=? - (c_w c - 2)) eqn:E2; [apply Z.leb_le in E2; lia|].
    set (k := Z.to_nat (py_len (c_chars c) + - (c_w c - 2))).
    exists (firstn k (c_chars c)), (skipn k (c_chars c)).
    split; [symmetry; apply firstn_skipn|]. split; [|reflexivity].
    unfold py_len in *. rewrite length_skipn. unfold k. unfold py_len in *. lia.
Qed.

(** At width 2, [-(self.w - 2)] is [0] and the slice is the whole buffer:
    a buffer of 2 characters or more is shown in full after ["…"], wider
    than the box. *)
Theorem cmd_display_width_two (c : cmdbox) :
  c_w c = 2 -> 2 <= py_len (c_chars c) ->
  cmd_display c = glyph_ellipsis :: c_chars c /\ c_w c < py_len (cmd_display c).
Proof.
  intros Hw Hl. unfold cmd_display. rewrite Hw.
  destruct (py_len (c_chars c) <? 2) eqn:E; [apply Z.ltb_lt in E; lia|].
  change (py_drop (- (2 - 2)) (c_chars c)) with (c_chars c).
  split; [reflexivity|]. rewrite py_len_cons. lia.
Qed.

(** Backspace ([127] or [KEY_BACKSPACE]) right after a printable key takes
    the key back: the loop goes on as if neither had been pressed.  On an
    empty buffer, backspace does nothing. *)
Theorem backspace_cancels_key cc di kn (fuel : nat) (b : Z) (rest : list Z) (hi : Z) (w : window) :
  (b = 127 \/ b = KEY_BACKSPACE) ->
  (forall k, printable k = true ->
     key_loop cc di kn fuel (k :: b :: rest) hi w = key_loop cc di kn fuel rest hi w) /\
  (c_chars (cmdbox_of w) = [] ->
     key_loop cc di kn fuel (b :: rest) hi w = key_loop cc di kn fuel rest hi w).
Proof.
  intros Hb. destruct w as [d m [cw cs ch]].
  split; [intros k Hk|intros Hc]; cbn [key_loop];
    unfold bind, get_st, put_st, cmd_draw, ret; cbn [cmdbox_of c_chars set_chars].
  - unfold printable in Hk. rewrite Hk.
    destruct Hb as [-> | ->]; cbn -[key_loop removelast];
      rewrite length_app, Nat.add_comm; cbn -[key_loop removelast];
      rewrite removelast_last; reflexivity.
  - cbn in Hc. subst cs. destruct Hb as [-> | ->]; reflexivity.
Qed.

Ltac split_matches :=
  repeat (match goal with |- context [match ?x with _ => _ end] => destruct x end;
          cbv beta iota zeta).

(** The loop only looks up a custom command for a key no earlier branch takes. *)
Lemma key_loop_custom_ext (cc1 cc2 : Z -> option (St window unit)) di kn (fuel : nat) :
  (forall k, handled_key k = false -> cc1 k = cc2 k) ->
  forall keys hi w,
  key_loop cc1 di kn fuel keys hi w = key_loop cc2 di kn fuel keys hi w.
Proof.
  intros H keys. induction keys as [|k ks IH]; intros hi w; [reflexivity|].
  cbn [key_loop]. unfold bind, get_st, put_st, cmd_draw, ret, on_msgbox. cbv beta iota zeta.
  destruct ((32 <=? k) && (k <=? 126)) eqn:E1; [apply IH|].
  destruct ((k =? 127) || (k =? KEY_BACKSPACE)) eqn:E2; [split_matches; try reflexivity; apply IH|].
  destruct (k =? KEY_UP) eqn:E3; [split_matches; try reflexivity; apply IH|].
  destruct (k =? KEY_DOWN) eqn:E4; [split_matches; try reflexivity; apply IH|].
  destruct (k =? KEY_PPAGE) eqn:E5; [split_matches; try reflexivity; apply IH|].
  destruct (k =? KEY_NPAGE) eqn:E6; [split_matches; try reflexivity; apply IH|].
  destruct (k =? 13) eqn:E7; [reflexivity|].
  destruct (k =? 4) eqn:E8; [split_matches; try reflexivity; apply IH|].
  rewrite (H k) by (unfold handled_key, printable; rewrite E1, E2, E3, E4, E5, E6, E7, E8;
                    reflexivity).
  split_matches; try reflexivity; apply IH.
Qed.

(** [register(val, func)]: for a key the key loop handles before the custom
    commands (printable keys, backspace, the arrows, the page keys, enter,
    Ctrl+D), the registration has no effect at all; for any other key,
    pressing it runs [func] and the loop goes on. *)
Theorem register_effect cc di kn (fuel : nat) (val : Z) (f : St window unit) :
  (handled_key val = true -> forall keys hi w,
     key_loop (register val f cc) di kn fuel keys hi w = key_loop cc di kn fuel keys hi w) /\
  (handled_key val = false -> forall rest hi w,
     key_loop (register val f cc) di kn fuel (val :: rest) hi w =
     (f;; key_loop (register val f cc) di kn fuel rest hi) w).
Proof.
  split.
  - intros Hv. apply key_loop_custom_ext. intros k Hk. unfold register.
    destruct (k =? val) eqn:E; [|reflexivity].
    apply Z.eqb_eq in E. subst. congruence.
  - intros Hv rest hi w. cbn [key_loop]. unfold bind at 1, get_st. cbv beta iota zeta.
    unfold handled_key, printable in Hv.
    repeat rewrite orb_false_iff in Hv.
    destruct Hv as [[[[[[[H1 [H2 H3]] H4] H5] H6] H7] H8] H9].
    rewrite H1, H2, H3, H4, H5, H6, H7, H8, H9. cbn [orb].
    unfold register. rewrite Z.eqb_refl. reflexivity.
Qed.

Lemma push_after_appendleft (l : line) (c : pystr * atom) (m : msgbox) :
  (1 <= maxlen (m_history m))%nat ->
  push_chunk c (set_history m (appendleft l (m_history m))) =
  (Ret tt, set_history m (appendleft (l ++ [c]) (m_history m))).
Proof.
  intros HM. destruct m as [h w [its M] idx]. cbn in HM. destruct M as [|M]; [lia|].
  reflexivity.
Qed.

(** A message whose text, leading whitespace stripped, fits in [w - 2]
    columns takes exactly one line: the sigil chunk and the stripped text. *)
Theorem append_fitting_message (fuel : nat) (s sigil : pystr) (m : msgbox) :
  (1 <= fuel)%nat -> (1 <= maxlen (m_history m))%nat -> py_len (lstrip s) <= m_w m - 2 ->
  append fuel [CStr s] sigil m =
  (Ret tt, set_history m (appendleft [(sigil ++ [space], AInt A_NORMAL);
                                      (lstrip s, AInt A_NORMAL)] (m_history m))).
Proof.
  intros Hf HM Hfit. rewrite append_one_str. cbv zeta.
  destruct fuel as [|f]; [lia|]. cbn [wrap_loop]. rewrite Z.eqb_refl.
  rewrite (proj2 (Z.leb_le _ _) Hfit). unfold bind.
  rewrite push_after_appendleft by exact HM. reflexivity.
Qed.

Lemma rfind_aux_absent (c : Z) (s : pystr) (i best : Z) :
  ~ In c s -> rfind_aux c s i best = best.
Proof.
  revert i best. induction s as [|x t IH]; intros i best H; [reflexivity|].
  cbn. destruct (x =? c) eqn:E.
  - apply Z.eqb_eq in E. subst. exfalso. apply H. left. reflexivity.
  - apply IH. intros Hin. apply H. right. exact Hin.
Qed.

Lemma lstrip_all_space (t : pystr) : forallb is_space t = true -> lstrip t = [].
Proof.
  induction t as [|x t IH]; [reflexivity|]. cbn. intros H.
  apply andb_true_iff in H as [Hx Ht]. rewrite Hx. exact (IH Ht).
Qed.

Lemma py_take_app (a b : pystr) : py_take (py_len a) (a ++ b) = a.
Proof.
  unfold py_take. rewrite (proj2 (Z.leb_le _ _) (py_len_nonneg a)).
  unfold py_len. rewrite Nat2Z.id, firstn_app, firstn_all, Nat.sub_diag. cbn.
  apply app_nil_r.
Qed.

Lemma py_drop_app (a b : pystr) : py_drop (py_len a) (a ++ b) = b.
Proof.
  unfold py_drop. rewrite (proj2 (Z.leb_le _ _) (py_len_nonneg a)).
  unfold py_len. rewrite Nat2Z.id, skipn_app, skipn_all, Nat.sub_diag. reflexivity.
Qed.

(** [draw] stops at the first chunk of the newest line with an empty text,
    when the chunks before it are drawn. *)
Lemma draw_fails_on_head (m : msgbox) (p : pystr) (a : Z) (st : atom) (l : line) (rest : list line) :
  m_history_index m = 0 -> 1 <= m_h m -> p <> [] ->
  items (m_history m) = ((p, AInt a) :: ([], st) :: l) :: rest ->
  draw_events m = Exc IndexError.
Proof.
  intros Hi Hh Hp Hit. destruct m as [h w [its M] idx]. cbn in *. subst idx its.
  unfold draw_events, hist_len. cbn -[Z.min].
  match goal with |- context [firstn (Z.to_nat ?x) _] => destruct (Z.to_nat x) as [|k] eqn:Ek end.
  { exfalso. rewrite Zpos_P_of_succ_nat in Ek.
    pose proof (Nat2Z.is_nonneg (List.length rest)). lia. }
  destruct p as [|c t]; [contradiction|]. reflexivity.
Qed.
Lemma appendleft_items {A} (x : A) (d : deque A) :
  (1 <= maxlen d)%nat -> items (appendleft x d) = x :: firstn (Nat.pred (maxlen d)) (items d).
Proof. destruct d as [its [|k]]; cbn; [lia|reflexivity]. Qed.

(** [Window.say] on a message that is a word of exactly [w - 2] characters
    with no space in it, followed by whitespace: the word fills the first
    line, the whitespace is carried to a new line where [lstrip] empties
    it, an empty chunk is stored, and the redraw raises [IndexError]. *)
Theorem say_word_then_whitespace_raises (fuel : nat) (word tail : pystr) (w0 : window) :
  (2 <= fuel)%nat -> m_history_index (msgbox_of w0) = 0 -> 1 <= m_h (msgbox_of w0) ->
  (1 <= maxlen (m_history (msgbox_of w0)))%nat ->
  py_len word = m_w (msgbox_of w0) - 2 -> is_space (hd space word) = false ->
  ~ In space word -> tail <> [] -> forallb is_space tail = true ->
  fst (say fuel (CStr (word ++ tail)) w0) = Exc IndexError.
Proof.
  intros Hf Hi Hh HM Hlen Hw0 Hns Ht Hsp.
  destruct word as [|x word']; [cbn in Hw0; discriminate|].
  set (word := x :: word') in *.
  set (m := msgbox_of w0) in *.
  unfold say, on_msgbox. fold m.
  destruct fuel as [|[|f]]; [lia|lia|].
  unfold bind at 1. rewrite append_one_str. cbv zeta.
  set (m0 := set_history m _).
  assert (Hl : lstrip (word ++ tail) = word ++ tail) by (cbn in Hw0 |- *; rewrite Hw0; reflexivity).
  assert (Hnf : (py_len (word ++ tail) <=? m_w m - 2) = false).
  { apply Z.leb_gt. rewrite py_len_app. destruct tail as [|y t]; [contradiction|].
    rewrite py_len_cons. pose proof (py_len_nonneg t). lia. }
  assert (Hr : rfind space (py_take (m_w m - 2) (word ++ tail)) = -1).
  { rewrite <- Hlen, py_take_app. unfold rfind. apply rfind_aux_absent, Hns. }
  remember (S f) as f1 eqn:Ef1.
  cbn [wrap_loop]. rewrite Z.eqb_refl, Hl, Hnf, Hr. cbn [Z.ltb Z.compare].
  rewrite <- Hlen, py_take_app, py_drop_app.
  unfold bind at 1 2. unfold m0. rewrite push_after_appendleft by exact HM.
  unfold ret at 1. cbv iota.
  set (m1 := set_history m (appendleft ([([glyph_dot] ++ [space], AInt A_NORMAL)] ++ [(word, AInt A_NORMAL)]) (m_history m))).
  unfold bind at 1. unfold new_line at 1. cbv iota.
  subst f1. cbn [wrap_loop]. rewrite Z.eqb_refl, (lstrip_all_space tail Hsp).
  rewrite (proj2 (Z.leb_le (py_len []) (m_w m - 2)))
    by (pose proof (py_len_nonneg word); cbn; lia).
  unfold bind at 1. rewrite push_after_appendleft by (cbn; exact HM).
  unfold ret. cbv iota. unfold draw.
  erewrite (draw_fails_on_head _ [space; space] A_NORMAL (AInt A_NORMAL) []
              (firstn (Nat.pred (maxlen (m_history m))) (items (m_history m1))));
    [reflexivity | exact Hi | exact Hh | discriminate |].
  cbn [m_history set_history]. rewrite appendleft_items by (cbn; exact HM).
  reflexivity.
Qed.
Lemma set_chars_twice (w : window) (x y : pystr) : set_chars (set_chars w x) y = set_chars w y.
Proof. destruct w as [d m [cw cs ch]]. reflexivity. Qed.

Lemma cmd_history_set_chars (w : window) (x : pystr) :
  c_history (cmdbox_of (set_chars w x)) = c_history (cmdbox_of w).
Proof. destruct w as [d m [cw cs ch]]. reflexivity. Qed.


Lemma key_up_first cc di kn fuel w ks :
  items (c_history (cmdbox_of w)) <> [] ->
  key_loop cc di kn fuel (KEY_UP :: ks) (-1) w =
  key_loop cc di kn fuel ks 0 (set_chars w (nth 0 (items (c_history (cmdbox_of w))) [])).
Proof.
  intros Hne. cbn [key_loop]. unfold bind at 1, get_st. cbv beta iota.
  change ((32 <=? KEY_UP) && (KEY_UP <=? 126)) with false.
  change ((KEY_UP =? 127) || (KEY_UP =? KEY_BACKSPACE)) with false.
  rewrite Z.eqb_refl. cbv iota.
  destruct (items (c_history (cmdbox_of w))) as [|h t] eqn:E; [contradiction|].
  rewrite (proj2 (Z.ltb_lt _ _)) by (cbn [List.length]; rewrite Nat2Z.inj_succ; lia).
  reflexivity.
Qed.

Lemma key_up_steps cc di kn fuel w n : forall j ks,
  let hs := items (c_history (cmdbox_of w)) in
  (j < List.length hs)%nat ->
  key_loop cc di kn fuel (repeat KEY_UP n ++ ks) (Z.of_nat j) (set_chars w (nth j hs [])) =
  key_loop cc di kn fuel ks (Z.of_nat (Nat.min (j + n) (List.length hs - 1)))
    (set_chars w (nth (Nat.min (j + n) (List.length hs - 1)) hs [])).
Proof.
  induction n as [|n IH]; intros j ks; cbv zeta in *; intros Hj;
    set (hs := items (c_history (cmdbox_of w))) in *.
  - rewrite Nat.add_0_r, Nat.min_l by lia. reflexivity.
  - cbn [repeat app key_loop]. unfold bind at 1, get_st. cbv beta iota.
    change ((32 <=? KEY_UP) && (KEY_UP <=? 126)) with false.
    change ((KEY_UP =? 127) || (KEY_UP =? KEY_BACKSPACE)) with false.
    rewrite Z.eqb_refl. cbv iota.
    rewrite cmd_history_set_chars. fold hs.
    destruct (Z.of_nat j <? Z.of_nat (List.length hs) - 1) eqn:E.
    + apply Z.ltb_lt in E.
      unfold bind at 1 2 3, put_st, cmd_draw, ret. rewrite set_chars_twice.
      replace (Z.to_nat (Z.of_nat j + 1)) with (S j) by lia.
      replace (Z.of_nat j + 1) with (Z.of_nat (S j)) by lia.
      rewrite IH by lia. replace (S j + n)%nat with (j + S n)%nat by lia. reflexivity.
    + apply Z.ltb_ge in E. unfold bind at 1, ret.
      assert (Hm : Nat.min (j + S n) (List.length hs - 1) = j) by lia.
      rewrite Hm. destruct n as [|n].
      * reflexivity.
      * rewrite IH by lia. replace (Nat.min (j + S n) (List.length hs - 1)) with j by lia.
        reflexivity.
Qed.

Lemma key_down_steps cc di kn fuel w d : forall j ks,
  let hs := items (c_history (cmdbox_of w)) in
  (j < List.length hs)%nat ->
  key_loop cc di kn fuel (repeat KEY_DOWN d ++ ks) (Z.of_nat j) (set_chars w (nth j hs [])) =
  key_loop cc di kn fuel ks (Z.of_nat (j - d)) (set_chars w (nth (j - d) hs [])).
Proof.
  induction d as [|d IH]; intros j ks; cbv zeta in *; intros Hj;
    set (hs := items (c_history (cmdbox_of w))) in *.
  - rewrite Nat.sub_0_r. reflexivity.
  - cbn [repeat app key_loop]. unfold bind at 1, get_st. cbv beta iota.
    change ((32 <=? KEY_DOWN) && (KEY_DOWN <=? 126)) with false.
    change ((KEY_DOWN =? 127) || (KEY_DOWN =? KEY_BACKSPACE)) with false.
    change (KEY_DOWN =? KEY_UP) with false.
    rewrite Z.eqb_refl. cbv iota.
    rewrite cmd_history_set_chars. fold hs.
    destruct (0 <? Z.of_nat j) eqn:E.
    + apply Z.ltb_lt in E.
      unfold bind at 1 2 3, put_st, cmd_draw, ret. rewrite set_chars_twice.
      replace (Z.to_nat (Z.of_nat j - 1)) with (j - 1)%nat by lia.
      replace (Z.of_nat j - 1) with (Z.of_nat (j - 1)) by lia.
      rewrite IH by lia. replace (j - 1 - d)%nat with (j - S d)%nat by lia. reflexivity.
    + apply Z.ltb_ge in E. unfold bind at 1, ret.
      assert (j = 0)%nat by lia. subst j.
      destruct d as [|d]; [reflexivity|]. rewrite IH by lia. reflexivity.
Qed.

(** Browsing the command history in [get]: from the fresh index [-1], [n]
    presses of KEY_UP (at least one, over a non-empty history) then [d]
    presses of KEY_DOWN and enter leave the buffer holding the history entry
    at index [min(n, len) - 1 - d], floored at the newest entry [0]; the
    presses past either end do nothing. *)
Theorem history_recall cc di kn fuel (n d : nat) (rest : list Z) (w : window) :
  (1 <= n)%nat -> items (c_history (cmdbox_of w)) <> [] ->
  let hs := items (c_history (cmdbox_of w)) in
  key_loop cc di kn fuel (repeat KEY_UP n ++ repeat KEY_DOWN d ++ 13 :: rest) (-1) w =
  (Ret rest, set_chars w (nth (Nat.min n (List.length hs) - 1 - d) hs [])).
Proof.
  intros Hn Hne. cbv zeta. set (hs := items (c_history (cmdbox_of w))) in *.
  destruct n as [|n]; [lia|].
  cbn [repeat app]. rewrite key_up_first by exact Hne.
  change 0 with (Z.of_nat 0).
  assert (Hl : (0 < List.length hs)%nat) by (destruct hs eqn:E; [contradiction|cbn; lia]).
  rewrite key_up_steps by exact Hl. fold hs.
  rewrite key_down_steps by (fold hs; lia). fold hs.
  cbn [key_loop]. unfold bind at 1, get_st. cbv beta iota.
  change ((32 <=? 13) && (13 <=? 126)) with false. cbv iota.
  unfold ret. rewrite set_chars_twice.
  replace (Nat.min (0 + n) (List.length hs - 1)) with (Nat.min (S n) (List.length hs) - 1)%nat by lia.
  reflexivity.
Qed.

Lemma no_adj_dup_firstn (n : nat) (l : list pystr) : no_adj_dup l -> no_adj_dup (firstn n l).
Proof.
  revert n. induction l as [|x t IH]; intros n H; [destruct n; exact I|].
  destruct n as [|n]; [exact I|]. cbn [firstn].
  destruct t as [|y t']; [destruct n; exact I|].
  destruct H as [Hxy Ht]. specialize (IH n Ht).
  destruct n as [|n]; [exact I|]. cbn [firstn] in IH |- *. split; assumption.
Qed.

Lemma submit_history (fuel : nat) (w0 w1 : window) (r : res pystr) :
  submit fuel w0 = (r, w1) ->
  c_history (cmdbox_of w1) = c_history (cmdbox_of w0) \/
  c_history (cmdbox_of w1) = push_history (c_chars (cmdbox_of w0)) (c_history (cmdbox_of w0)).
Proof.
  destruct w0 as [d m [cw cs ch]]. unfold submit, bind, get_st, put_st, cmd_draw, ret.
  cbn [cmdbox_of c_chars c_history].
  destruct (lstrip cs) as [|x t] eqn:E.
  - intros H. injection H as <- <-. cbn. auto.
  - unfold on_msgbox. cbn [msgbox_of].
    destruct (append fuel _ _ m) as [[u|e|] m']; intros H; injection H as <- <-; cbn; auto.
Qed.

(** [get]'s submit step keeps the command history free of two equal
    neighbouring entries and within the deque's bound, whatever it returns
    (also when echoing the command raises): the buffer is pushed only when
    it differs from [history[0]], through [appendleft] on the bounded deque. *)
Theorem submit_keeps_history_invariant (fuel : nat) (w0 w1 : window) (r : res pystr) :
  let h0 := c_history (cmdbox_of w0) in
  no_adj_dup (items h0) -> (List.length (items h0) <= maxlen h0)%nat ->
  submit fuel w0 = (r, w1) ->
  let h1 := c_history (cmdbox_of w1) in
  no_adj_dup (items h1) /\ (List.length (items h1) <= maxlen h1)%nat /\ maxlen h1 = maxlen h0.
Proof.
  intros h0 Hd Hl Hs h1. unfold h1. apply submit_history in Hs as [-> | ->]; [auto|].
  fold h0. set (x := c_chars (cmdbox_of w0)). clearbody h0 x.
  unfold push_history. destruct (items h0) as [|y t] eqn:E.
  - unfold appendleft. cbn [items maxlen]. rewrite E, length_firstn.
    split; [apply no_adj_dup_firstn; exact I | split; [lia|reflexivity]].
  - destruct (list_eq_dec Z.eq_dec x y) as [_|Hne].
    + rewrite E. auto.
    + unfold appendleft. cbn [items maxlen]. rewrite E, length_firstn.
      split; [apply no_adj_dup_firstn; cbn; split; assumption | split; [lia|reflexivity]].
Qed.

(** [get] without a prompt on a line of printable keys that is blank after
    [lstrip] (empty, or spaces only): it returns the empty command and the
    keys after enter, echoes nothing to the message box, leaves the command
    history alone, and only clears the buffer. *)
Theorem get_blank_command cc di kn (fuel : nat) (ks rest : list Z) (w0 : window) :
  Forall (fun k => printable k = true) ks -> lstrip ks = [] ->
  get cc di kn fuel None (ks ++ 13 :: rest) w0 = (Ret ([], rest), set_chars w0 []).
Proof.
  intros Hks Hb. unfold get, prompt_phase.
  unfold bind at 1, ret at 1. unfold bind at 1, get_st. unfold bind at 1, put_st.
  unfold bind at 1. rewrite key_loop_printable by exact Hks.
  cbn [cmdbox_of set_chars c_chars app]. rewrite set_chars_twice.
  unfold submit, bind, get_st, put_st, cmd_draw, ret.
  destruct w0 as [d m [cw cs ch]]. cbn [set_chars cmdbox_of c_chars msgbox_of debug_mode c_w c_history].
  rewrite Hb. reflexivity.
Qed.

(** [get] on a line of printable keys and enter: it returns the typed text
    with its leading whitespace stripped and the keys after enter, and
    clears the buffer; the command history gets the raw text in front
    (unless blank or equal to the newest entry), whatever the prompt. *)
Theorem get_typed_command cc di kn (fuel : nat) (p : option chunk) (ks rest : list Z)
    (w0 w1 : window) (r : pystr * list Z) :
  Forall (fun k => printable k = true) ks ->
  get cc di kn fuel p (ks ++ 13 :: rest) w0 = (Ret r, w1) ->
  r = (lstrip ks, rest) /\ c_chars (cmdbox_of w1) = [] /\
  items (c_history (cmdbox_of w1)) =
    (if is_empty (lstrip ks) then items (c_history (cmdbox_of w0))
     else match items (c_history (cmdbox_of w0)) with
          | x :: _ => if list_eq_dec Z.eq_dec ks x then items (c_history (cmdbox_of w0))
                      else firstn (maxlen (c_history (cmdbox_of w0))) (ks :: items (c_history (cmdbox_of w0)))
          | [] => firstn (maxlen (c_history (cmdbox_of w0))) [ks]
          end).
Proof.
  intros Hks H. apply get_printable in H as (-> & Hc & Hh); [|exact Hks].
  split; [reflexivity|split; [exact Hc|]]. rewrite Hh.
  destruct (is_empty (lstrip ks)); [reflexivity|].
  unfold push_history, appendleft. destruct (c_history (cmdbox_of w0)) as [its M].
  cbn [items maxlen]. destruct its as [|x t]; [reflexivity|].
  destruct (list_eq_dec Z.eq_dec ks x); reflexivity.
Qed.

Lemma non_space_app (a b : pystr) : non_space (a ++ b) = non_space a ++ non_space b.
Proof. apply filter_app. Qed.

Lemma non_space_lstrip (p : pystr) : non_space (lstrip p) = non_space p.
Proof.
  induction p as [|c t IH]; [reflexivity|]. cbn [lstrip].
  destruct (is_space c) eqn:E; [|reflexivity].
  rewrite IH. unfold non_space. cbn [filter]. rewrite E. reflexivity.
Qed.

Lemma py_take_drop (n : Z) (s : pystr) : py_take n s ++ py_drop n s = s.
Proof. unfold py_take, py_drop. destruct (0 <=? n); apply firstn_skipn. Qed.

Lemma push_text_inv M old cur rest m c r m2 :
  text_inv M old (cur :: rest) m -> push_chunk c m = (r, m2) ->
  (r = Ret tt /\ text_inv M old ((cur ++ [c]) :: rest) m2 /\
   lines_text ((cur ++ [c]) :: rest) = lines_text (cur :: rest) ++ fst c) \/
  (r = Exc IndexError).
Proof.
  intros (Hh & cur' & rest' & E & Hc) H. injection E as <- <-.
  unfold push_chunk in H. rewrite Hh in H. cbn [items maxlen] in H.
  destruct M as [|M]; cbn [firstn app] in H.
  - injection H as <- _. right. reflexivity.
  - injection H as <- <-. left. split; [reflexivity|]. split.
    + split; [reflexivity|]. exists (cur ++ [c]), rest. split; [reflexivity|].
      destruct cur; [contradiction|discriminate].
    + unfold lines_text. cbn [rev]. rewrite !map_app, !concat_app.
      cbn [map List.concat]. rewrite !app_nil_r, <- app_assoc. f_equal.
      destruct cur as [|x t]; [contradiction|]. unfold line_text. cbn [tl app].
      rewrite map_app, concat_app. cbn. rewrite app_nil_r. reflexivity.
Qed.

Lemma new_line_text_inv M old L m x r m2 :
  text_inv M old L m -> x <> [] -> new_line x m = (r, m2) ->
  r = Ret tt /\ text_inv M old (x :: L) m2 /\ lines_text (x :: L) = lines_text L ++ line_text x.
Proof.
  intros (Hh & _) Hx H. unfold new_line in H. injection H as <- <-.
  split; [reflexivity|]. split.
  - split; [|exists x, L; auto].
    unfold set_history, appendleft. cbn [m_history]. rewrite Hh. cbn [items maxlen].
    rewrite firstn_cons_firstn. reflexivity.
  - unfold lines_text. cbn [rev]. rewrite map_app, concat_app. cbn. rewrite app_nil_r. reflexivity.
Qed.

Lemma push_ret_text_inv M old L m c {A} (v : A) r m2 :
  text_inv M old L m -> (push_chunk c;; ret v) m = (r, m2) ->
  (r = Ret v /\ exists L', text_inv M old L' m2 /\ lines_text L' = lines_text L ++ fst c) \/
  (exists e, r = Exc e).
Proof.
  intros Hi H. pose proof Hi as (_ & cur & rest & -> & _).
  split_bind H as u Ha Hk.
  - destruct (push_text_inv _ _ _ _ _ _ _ _ Hi Ha) as [(_ & Hi' & Ht) | Hr]; [|discriminate].
    unfold ret in Hk. injection Hk as <- <-. left. split; [reflexivity|]. eauto.
  - right. eauto.
  - destruct (push_text_inv _ _ _ _ _ _ _ _ Hi Ha) as [(Hr & _) | Hr]; discriminate.
Qed.

Lemma wrap_loop_text M old w st : forall fuel p pos m L q m',
  text_inv M old L m ->
  wrap_loop fuel w p st pos m = (Ret q, m') ->
  exists L' t, text_inv M old L' m' /\ lines_text L' = lines_text L ++ t /\
    non_space t = non_space p.
Proof.
  induction fuel as [|fuel IH]; intros p pos m L q m' Hi H; [discriminate|].
  cbn [wrap_loop] in H.
  set (p' := if pos =? 2 then lstrip p else p) in H.
  assert (Hp' : non_space p' = non_space p)
    by (unfold p'; destruct (pos =? 2); [apply non_space_lstrip|reflexivity]).
  clearbody p'.
  destruct (py_len p' <=? w - pos).
  - destruct (push_ret_text_inv _ _ _ _ _ _ _ _ Hi H) as [(_ & L' & Hi' & Ht) | (e & He)];
      [|discriminate].
    exists L', p'. auto.
  - set (ls := rfind space (py_take (w - pos) p')) in H. clearbody ls.
    set (k := w - pos) in H. clearbody k.
    split_bind H as p2 Ha Hk; [|discriminate..].
    assert (Hstep : exists L1 t1, text_inv M old L1 s /\ lines_text L1 = lines_text L ++ t1 /\
              non_space (t1 ++ p2) = non_space p').
    { destruct (0 <? ls); [|destruct (pos =? 2)].
      1, 2: destruct (push_ret_text_inv _ _ _ _ _ _ _ _ Hi Ha) as [(Hr & L1 & Hi1 & Ht1) | (e & He)];
        [injection Hr as ->; exists L1; eexists; split; [exact Hi1|split; [exact Ht1|]];
         cbn [fst]; rewrite py_take_drop; reflexivity | discriminate].
      unfold ret in Ha. injection Ha as <- <-. exists L, []. rewrite app_nil_r. auto. }
    destruct Hstep as (L1 & t1 & Hi1 & Ht1 & Hn1).
    split_bind Hk as u Hn Hw; [|discriminate..].
    assert (Hx : [([space; space], AInt A_NORMAL)] <> []) by congruence.
    destruct (new_line_text_inv _ _ _ _ _ _ _ Hi1 Hx Hn) as (_ & Hi2 & Ht2).
    destruct (IH _ _ _ _ _ _ Hi2 Hw) as (L3 & t3 & Hi3 & Ht3 & Hn3).
    exists L3, (t1 ++ t3). split; [exact Hi3|]. split.
    + rewrite Ht3, Ht2, Ht1. cbn. rewrite !app_nil_r, app_assoc. reflexivity.
    + rewrite <- Hp', <- Hn1, !non_space_app, Hn3. reflexivity.
Qed.

Lemma append_chunk_text M old fuel w c pos m L q m' :
  text_inv M old L m ->
  append_chunk fuel w c pos m = (Ret q, m') ->
  exists L' t, text_inv M old L' m' /\ lines_text L' = lines_text L ++ t /\
    non_space t = non_space (chunk_phrase c).
Proof.
  intros Hi H. destruct c as [s|its|]; cbn [append_chunk wrap_phrase chunk_phrase] in H |- *.
  - eapply wrap_loop_text; eauto.
  - destruct its as [|[s|z] [|st its']]; cbn [nth_error wrap_phrase] in H; unfold raise in H; try discriminate.
    + eapply wrap_loop_text; eauto.
    + destruct (pos =? 2); discriminate.
  - unfold raise in H. discriminate.
Qed.

Lemma append_chunks_text M old fuel w : forall cs pos m L q m',
  text_inv M old L m ->
  append_chunks fuel w cs pos m = (Ret q, m') ->
  exists L' t, text_inv M old L' m' /\ lines_text L' = lines_text L ++ t /\
    non_space t = non_space (List.concat (map chunk_phrase cs)).
Proof.
  induction cs as [|c cs IH]; intros pos m L q m' Hi H.
  - unfold append_chunks, ret in H. injection H as _ <-. exists L, []. rewrite app_nil_r. auto.
  - cbn [append_chunks] in H. split_bind H as q1 Ha Hk; [|discriminate..].
    destruct (append_chunk_text _ _ _ _ _ _ _ _ _ _ Hi Ha) as (L1 & t1 & Hi1 & Ht1 & Hn1).
    destruct (IH _ _ _ _ _ Hi1 Hk) as (L2 & t2 & Hi2 & Ht2 & Hn2).
    exists L2, (t1 ++ t2). split; [exact Hi2|]. split.
    + rewrite Ht2, Ht1, app_assoc. reflexivity.
    + cbn [map List.concat]. rewrite !non_space_app, Hn1, Hn2. reflexivity.
Qed.

(** [Msgbox.append] loses no visible character and adds none: when it
    returns, the history is the new lines (newest first) in front of the
    old ones, cut to [maxlen], and the text of the new lines after their
    leading chunk (the sigil or the two-space indent), read oldest first,
    has the same non-whitespace characters, in the same order, as the
    phrases of the chunks; wrapping only moves whitespace and [lstrip]
    only drops it. *)
Theorem append_keeps_text (fuel : nat) (cs : list chunk) (sigil : pystr) (m m' : msgbox) :
  append fuel cs sigil m = (Ret tt, m') ->
  exists new, m_history m' = mkDeque (firstn (maxlen (m_history m)) (new ++ items (m_history m)))
                                      (maxlen (m_history m)) /\
    non_space (List.concat (map line_text (rev new))) = non_space (List.concat (map chunk_phrase cs)).
Proof.
  intros H. unfold append, bind at 1, get_st in H.
  split_bind H as u Hn Hk; [|discriminate..].
  set (sl := [(sigil ++ [space], AInt A_NORMAL)]) in Hn.
  unfold new_line in Hn. injection Hn as _ <-.
  assert (Hi0 : text_inv (maxlen (m_history m)) (items (m_history m)) [sl]
                  (set_history m (appendleft sl (m_history m)))).
  { split; [reflexivity|]. exists sl, []. split; [reflexivity|]. unfold sl. congruence. }
  split_bind Hk as q Ha Hr; [|discriminate..].
  destruct (append_chunks_text _ _ _ _ _ _ _ _ _ _ Hi0 Ha) as (L & t & (Hh & _) & Ht & Hn).
  unfold ret in Hr. injection Hr as <-.
  exists L. split; [exact Hh|].
  change (List.concat (map line_text (rev L))) with (lines_text L). rewrite Ht, <- Hn.
  reflexivity.
Qed.

(** Outside debug mode, [get]'s key loop ignores Ctrl+D and every key it
    neither handles itself nor has a [register]ed function for: the buffer,
    the history index and the rest of the window stay as they were. *)
Theorem key_loop_ignores_keys cc di kn (fuel : nat) (k : Z) (rest : list Z) (hi : Z) (w : window) :
  debug_mode w = false -> k = 4 \/ (handled_key k = false /\ cc k = None) ->
  key_loop cc di kn fuel (k :: rest) hi w = key_loop cc di kn fuel rest hi w.
Proof.
  intros Hd Hk. cbn [key_loop]. unfold bind at 1, get_st. cbv beta iota.
  destruct Hk as [-> | [Hh Hc]].
  - cbn -[key_loop]. rewrite Hd. reflexivity.
  - unfold handled_key, printable in Hh. rewrite !orb_false_iff in Hh.
    repeat match goal with
    | H : _ /\ _ |- _ => destruct H
    | H : ?b = false |- _ => rewrite H; clear H
    end.
    rewrite Hc. reflexivity.
Qed.

(** [paging_round_trip] on a three-line box: one page up then down, and
    from the page above, down then up. *)
Lemma paging_round_trip_witness :
  snd (page_down (snd (page_up three_line_box))) = three_line_box /\
  snd (page_up (snd (page_down (set_index three_line_box 1)))) = set_index three_line_box 1.
Proof.
  split.
  - apply (proj1 (paging_round_trip three_line_box ltac:(vm_compute; discriminate)
                    ltac:(vm_compute; discriminate))).
    vm_compute. reflexivity.
  - apply (proj2 (paging_round_trip (set_index three_line_box 1) ltac:(vm_compute; discriminate)
                    ltac:(vm_compute; discriminate)));
      vm_compute; first [reflexivity | discriminate].
Defined.

(** [cmd_display_fits] on a seven-character buffer in a box five wide. *)
Lemma cmd_display_fits_witness :
  let c := mkCmdbox 5 (of_ascii "abcdefg") (mkDeque [] 10) in
  (py_len (c_chars c) < c_w c /\ cmd_display c = c_chars c) \/
  (c_w c <= py_len (c_chars c) /\
   exists pre suf, c_chars c = pre ++ suf /\ py_len suf = c_w c - 2 /\
                   cmd_display c = glyph_ellipsis :: suf).
Proof. intros c. apply (cmd_display_fits c). vm_compute. discriminate. Defined.

(** [cmd_display_width_two] on ["abc"] in a box two wide. *)
Lemma cmd_display_width_two_witness :
  let c := mkCmdbox 2 (of_ascii "abc") (mkDeque [] 10) in
  cmd_display c = glyph_ellipsis :: c_chars c /\ c_w c < py_len (cmd_display c).
Proof.
  intros c. apply (cmd_display_width_two c); [reflexivity | vm_compute; discriminate].
Defined.

(** [backspace_cancels_key] with the DEL key (127) after ['x']. *)
Lemma backspace_cancels_key_witness :
  key_loop (fun _ => None) (ret tt) (fun _ => None) 10 (120 :: 127 :: [13]) (-1) go_window =
  key_loop (fun _ => None) (ret tt) (fun _ => None) 10 [13] (-1) go_window /\
  key_loop (fun _ => None) (ret tt) (fun _ => None) 10 (127 :: [13]) (-1) go_window =
  key_loop (fun _ => None) (ret tt) (fun _ => None) 10 [13] (-1) go_window.
Proof.
  destruct (backspace_cancels_key (fun _ => None) (ret tt) (fun _ => None) 10 127 [13] (-1)
              go_window (or_introl eq_refl)) as [H1 H2].
  split; [apply H1; reflexivity | apply H2; reflexivity].
Defined.

(** [register_effect] with enter (13), which [get] handles itself, and with
    Ctrl+R (18), which it does not. *)
Lemma register_effect_witness :
  key_loop (register 13 (ret tt) (fun _ => None)) (ret tt) (fun _ => None) 10 [120; 13] (-1) go_window =
  key_loop (fun _ => None) (ret tt) (fun _ => None) 10 [120; 13] (-1) go_window /\
  key_loop (register 18 (put_st abc_window) (fun _ => None)) (ret tt) (fun _ => None) 10 [18; 13] (-1)
    go_window =
  (put_st abc_window;;
   key_loop (register 18 (put_st abc_window) (fun _ => None)) (ret tt) (fun _ => None) 10 [13] (-1))
    go_window.
Proof.
  split.
  - apply (proj1 (register_effect (fun _ => None) (ret tt) (fun _ => None) 10 13 (ret tt)));
      reflexivity.
  - apply (proj2 (register_effect (fun _ => None) (ret tt) (fun _ => None) 10 18 (put_st abc_window)));
      reflexivity.
Defined.

(** [append_fitting_message] on ["  hi"] in a box ten wide. *)
Lemma append_fitting_message_witness :
  append 10 [CStr (of_ascii "  hi")] [glyph_dot] (new_msgbox 20 10) =
  (Ret tt, set_history (new_msgbox 20 10)
             (appendleft [([glyph_dot] ++ [space], AInt A_NORMAL);
                          (lstrip (of_ascii "  hi"), AInt A_NORMAL)] (m_history (new_msgbox 20 10)))).
Proof.
  apply append_fitting_message; [lia | vm_compute; lia | vm_compute; discriminate].
Defined.

(** [say_word_then_whitespace_raises] on ["abcdefgh "] in a box ten wide. *)
Lemma say_word_then_whitespace_raises_witness :
  fst (say 10 (CStr (of_ascii "abcdefgh" ++ of_ascii " ")) go_window) = Exc IndexError.
Proof.
  apply say_word_then_whitespace_raises;
    [lia | reflexivity | vm_compute; discriminate | vm_compute; lia | reflexivity
    | reflexivity | vm_compute; lia | discriminate | reflexivity].
Defined.

(** [history_recall]: up twice and down once over ["c"; "b"; "a"] recalls
    ["c"]; up five times stops at the oldest entry ["a"]. *)
Lemma history_recall_witness :
  key_loop (fun _ => None) (ret tt) (fun _ => None) 10
    (repeat KEY_UP 2 ++ repeat KEY_DOWN 1 ++ 13 :: []) (-1) abc_window =
  (Ret [], set_chars abc_window (of_ascii "c")) /\
  key_loop (fun _ => None) (ret tt) (fun _ => None) 10
    (repeat KEY_UP 5 ++ repeat KEY_DOWN 0 ++ 13 :: []) (-1) abc_window =
  (Ret [], set_chars abc_window (of_ascii "a")).
Proof.
  split.
  - exact (history_recall (fun _ => None) (ret tt) (fun _ => None) 10 2 1 [] abc_window
             ltac:(lia) ltac:(discriminate)).
  - exact (history_recall (fun _ => None) (ret tt) (fun _ => None) 10 5 0 [] abc_window
             ltac:(lia) ltac:(discriminate)).
Defined.

(** [submit_keeps_history_invariant] when the buffer repeats the newest
    entry. *)
Lemma submit_keeps_history_invariant_witness :
  let w0 := set_chars abc_window (of_ascii "c") in
  let h1 := c_history (cmdbox_of (snd (submit 10 w0))) in
  no_adj_dup (items h1) /\ (List.length (items h1) <= maxlen h1)%nat /\
  maxlen h1 = maxlen (c_history (cmdbox_of w0)).
Proof.
  intros w0.
  exact (submit_keeps_history_invariant 10 w0 (snd (submit 10 w0)) (fst (submit 10 w0))
           ltac:(vm_compute; repeat split; discriminate) ltac:(vm_compute; lia)
           ltac:(vm_compute; reflexivity)).
Defined.

(** [get_blank_command] on three spaces and enter. *)
Lemma get_blank_command_witness :
  plain_get 10 None ([32; 32; 32] ++ 13 :: []) go_window = (Ret ([], []), set_chars go_window []).
Proof.
  apply get_blank_command; [repeat constructor | reflexivity].
Defined.

(** [get_typed_command] on [" go"] and enter. *)
Lemma get_typed_command_witness :
  let w1 := snd (plain_get 10 None (of_ascii " go" ++ 13 :: []) go_window) in
  (of_ascii "go", @nil Z) = (lstrip (of_ascii " go"), @nil Z) /\ c_chars (cmdbox_of w1) = [] /\
  items (c_history (cmdbox_of w1)) = [of_ascii " go"].
Proof.
  intros w1.
  exact (get_typed_command (fun _ => None) (ret tt) (fun _ => None) 10 None (of_ascii " go") []
           go_window w1 (of_ascii "go", [])
           ltac:(repeat constructor) ltac:(vm_compute; reflexivity)).
Defined.

(** [append_keeps_text] on the sample message in a box ten wide. *)
Lemma append_keeps_text_witness :
  let m' := snd (append 10 sample_chunks [glyph_dot] (new_msgbox 20 10)) in
  exists new, m_history m' = mkDeque (firstn 200 (new ++ [])) 200 /\
    non_space (List.concat (map line_text (rev new))) =
    non_space (List.concat (map chunk_phrase sample_chunks)).
Proof.
  intros m'.
  exact (append_keeps_text 10 sample_chunks [glyph_dot] (new_msgbox 20 10) m'
           ltac:(vm_compute; reflexivity)).
Defined.

(** [key_loop_ignores_keys] with Ctrl+R (18), not registered, and Ctrl+D. *)
Lemma key_loop_ignores_keys_witness :
  key_loop (fun _ => None) (ret tt) (fun _ => None) 10 (18 :: [13]) (-1) go_window =
  key_loop (fun _ => None) (ret tt) (fun _ => None) 10 [13] (-1) go_window /\
  key_loop (fun _ => None) (ret tt) (fun _ => None) 10 (4 :: [13]) (-1) go_window =
  key_loop (fun _ => None) (ret tt) (fun _ => None) 10 [13] (-1) go_window.
Proof.
  split.
  - apply key_loop_ignores_keys; [reflexivity | right; split; reflexivity].
  - apply key_loop_ignores_keys; [reflexivity | left; reflexivity].
Defined.
